(** * The natives viewer: normalizer, query engine and deep-link codec

    A shallow embedding of the pure parts of the viewer script
    ([rawToPascal], [normalizeApiSet], [toExamplesMap], [flatten],
    [parseHashFragment], [parseDeepLink], [setDeepLink], the filter of
    [renderList], and the namespace list computed in [main]) together
    with the properties the documentation states about them; then of
    [escapeHtml], the four signature formatters, [fetchFirstOk], and the
    name, lookup and tab computations of [renderList], [renderDetail]
    and [renderCodeTabs], with properties read off the script itself.

    Conventions of the embedding.
    - A JavaScript string is a Rocq [string]; the model covers the ASCII
      range, where [toLowerCase] and [toUpperCase] are the letter maps
      below and [trim] removes tab, line feed, vertical tab, form feed,
      carriage return and space.
    - A value obtained from [JSON.parse] is a tree of type [value];
      numbers are the integers.
    - A [TypeError] thrown by the script is the [TypeError] result. *)

From Stdlib Require Import String Ascii List Bool Arith ZArith NArith Lia.
From Stdlib Require Import DecimalString Sorted Permutation OrderedTypeEx.
Import ListNotations.

Set Warnings "-register-all".

Local Open Scope string_scope.
Local Open Scope list_scope.

(** ** Strings *)

Module JsString.

Definition code (c : ascii) : N := N_of_ascii c.

Definition isUpper (c : ascii) : bool := ((65 <=? code c) && (code c <=? 90))%N.
Definition isLower (c : ascii) : bool := ((97 <=? code c) && (code c <=? 122))%N.
Definition isDigit (c : ascii) : bool := ((48 <=? code c) && (code c <=? 57))%N.

Definition lowerChar (c : ascii) : ascii :=
  if isUpper c then ascii_of_N (code c + 32) else c.
Definition upperChar (c : ascii) : ascii :=
  if isLower c then ascii_of_N (code c - 32) else c.

(** White space and line terminators of the ASCII range, as removed by
    [String.prototype.trim]. *)
Definition isWhiteSpace (c : ascii) : bool :=
  (((9 <=? code c) && (code c <=? 13)) || (code c =? 32))%N.

(** The class [[0-9a-f]] under the [i] flag. *)
Definition isHexDigit (c : ascii) : bool :=
  (isDigit c
   || ((97 <=? code c) && (code c <=? 102))
   || ((65 <=? code c) && (code c <=? 70)))%N.

Fixpoint map (f : ascii -> ascii) (s : string) : string :=
  match s with
  | EmptyString => EmptyString
  | String c r => String (f c) (map f r)
  end.

Fixpoint forallb (p : ascii -> bool) (s : string) : bool :=
  match s with
  | EmptyString => true
  | String c r => p c && forallb p r
  end.

Definition toLowerCase : string -> string := map lowerChar.
Definition toUpperCase : string -> string := map upperChar.

Fixpoint trimStart (s : string) : string :=
  match s with
  | EmptyString => EmptyString
  | String c r => if isWhiteSpace c then trimStart r else s
  end.

Fixpoint trimEnd (s : string) : string :=
  match s with
  | EmptyString => EmptyString
  | String c r =>
      match trimEnd r with
      | EmptyString => if isWhiteSpace c then EmptyString else String c EmptyString
      | t => String c t
      end
  end.

Definition trim (s : string) : string := trimEnd (trimStart s).

(** [startsWith p s]: [p] occurs in [s] at position 0. *)
Fixpoint startsWith (p s : string) : bool :=
  match p, s with
  | EmptyString, _ => true
  | String _ _, EmptyString => false
  | String a p', String b s' => Ascii.eqb a b && startsWith p' s'
  end.

(** [s.includes(q)] *)
Fixpoint includes (s q : string) : bool :=
  startsWith q s
  || match s with
     | EmptyString => false
     | String _ r => includes r q
     end.

(** [s.split(sep)] for a one-character separator: never the empty list. *)
Fixpoint split (sep : ascii) (s : string) : list string :=
  match s with
  | EmptyString => [EmptyString]
  | String c r =>
      if Ascii.eqb c sep then EmptyString :: split sep r
      else match split sep r with
           | seg :: rest => String c seg :: rest
           | [] => [String c EmptyString]
           end
  end.

(** [parts.join(sep)] on strings. *)
Definition join (sep : string) (parts : list string) : string :=
  String.concat sep parts.

Definition isEmpty (s : string) : bool :=
  match s with EmptyString => true | _ => false end.

(** [s.replace(/^_/, "")] *)
Definition stripUnderscore (s : string) : string :=
  match s with
  | String "_" r => r
  | _ => s
  end.

(** [/^0x/i.test(s)] *)
Definition test0x (s : string) : bool :=
  match s with
  | String "0" (String c _) => Ascii.eqb c "x" || Ascii.eqb c "X"
  | _ => false
  end.

(** [/^_?0x/i.test(s)] *)
Definition testHashName (s : string) : bool :=
  match s with
  | String "_" r => test0x r
  | _ => test0x s
  end.

(** The group [(0x[0-9a-f]+)] followed by [$], under the [i] flag. *)
Definition isHashToken (s : string) : bool :=
  match s with
  | String "0" (String c r) =>
      (Ascii.eqb c "x" || Ascii.eqb c "X") && negb (isEmpty r) && forallb isHexDigit r
  | _ => false
  end.

(** [raw.match(/^#_?(0x[0-9a-f]+)$/i)], reduced to its first group. *)
Definition matchHashFragment (raw : string) : option string :=
  match raw with
  | String "#" r =>
      let t := stripUnderscore r in
      if isHashToken t then Some t else None
  | _ => None
  end.

(** Decimal rendering of an array index and of an integer number. *)
Definition ofNat (n : nat) : string := NilZero.string_of_uint (Nat.to_uint n).
Definition ofZ (z : Z) : string := NilZero.string_of_int (Z.to_int z).

End JsString.

(** ** Values and errors *)

Module Js.

(** Outcome of a computation that may throw. Every exception the
    modelled functions can raise is a [TypeError]. *)
Inductive result (A : Type) : Type :=
| OK (a : A)
| TypeError.
Arguments OK {A} a.
Arguments TypeError {A}.

Definition bind {A B : Type} (r : result A) (k : A -> result B) : result B :=
  match r with
  | OK a => k a
  | TypeError => TypeError
  end.

Notation "x <- r ;; k" := (bind r (fun x => k))
  (at level 61, r at next level, right associativity).

Fixpoint mapM {A B : Type} (f : A -> result B) (l : list A) : result (list B) :=
  match l with
  | [] => OK []
  | a :: r => b <- f a ;; bs <- mapM f r ;; OK (b :: bs)
  end.

(** What [JSON.parse] returns, and [undefined] for an absent property.
    The properties of an object are listed in enumeration order. *)
Inductive value : Type :=
| VUndefined
| VNull
| VBool (b : bool)
| VNum (z : Z)
| VStr (s : string)
| VArr (items : list value)
| VObj (props : list (string * value)).

Definition nullish (v : value) : bool :=
  match v with
  | VUndefined | VNull => true
  | _ => false
  end.

(** [ToBoolean] *)
Definition truthy (v : value) : bool :=
  match v with
  | VUndefined | VNull => false
  | VBool b => b
  | VNum z => negb (Z.eqb z 0)
  | VStr s => negb (JsString.isEmpty s)
  | VArr _ | VObj _ => true
  end.

(** [a || b] *)
Definition or (a b : value) : value := if truthy a then a else b.

Fixpoint lookup (k : string) (props : list (string * value)) : value :=
  match props with
  | [] => VUndefined
  | (k', v) :: r => if String.eqb k' k then v else lookup k r
  end.

Definition hasOwn (k : string) (props : list (string * value)) : bool :=
  existsb (fun p => String.eqb (fst p) k) props.

(** [v.k] for a value [v] that is neither [null] nor [undefined] and a
    property name [k] among those the script reads ([hash], [name],
    [apiset], [examples], [description], [params], [results],
    [resultsDescription], [ns], [lang], [code], [type]): none of them
    is defined by the prototype of an object, array, string, number or
    boolean, so only own properties of objects are found. *)
Definition get (v : value) (k : string) : value :=
  match v with
  | VObj props => lookup k props
  | _ => VUndefined
  end.

(** [v.k] for any value [v]: reading a property of [null] or of
    [undefined] throws. A read that the script guards ([n0 || {}],
    [if (!ex) continue]) is written with [get]. *)
Definition read (v : value) (k : string) : result value :=
  if nullish v then TypeError else OK (get v k).

Fixpoint indexed {A : Type} (i : nat) (l : list A) : list (string * A) :=
  match l with
  | [] => []
  | a :: r => (JsString.ofNat i, a) :: indexed (S i) r
  end.

Fixpoint chars (s : string) : list value :=
  match s with
  | EmptyString => []
  | String c r => VStr (String c EmptyString) :: chars r
  end.

(** Own enumerable string-keyed properties, as copied by [{...v}]. *)
Definition ownEntries (v : value) : list (string * value) :=
  match v with
  | VObj props => props
  | VArr items => indexed 0 items
  | VStr s => indexed 0 (chars s)
  | _ => []
  end.

(** [Object.entries(v)] *)
Definition Object_entries (v : value) : result (list (string * value)) :=
  if nullish v then TypeError else OK (ownEntries v).

(** [ToString]. An object parsed from JSON is rendered by
    [Object.prototype.toString] unless it has an own (hence not
    callable) [toString] property, in which case the conversion
    throws; an array is rendered by [join(",")]. *)
Fixpoint ToString (v : value) : result string :=
  match v with
  | VUndefined => OK "undefined"
  | VNull => OK "null"
  | VBool true => OK "true"
  | VBool false => OK "false"
  | VNum z => OK (JsString.ofZ z)
  | VStr s => OK s
  | VArr items =>
      parts <- (fix each (l : list value) : result (list string) :=
                  match l with
                  | [] => OK []
                  | x :: r =>
                      s <- (if nullish x then OK EmptyString else ToString x) ;;
                      ss <- each r ;;
                      OK (s :: ss)
                  end) items ;;
      OK (JsString.join "," parts)
  | VObj props =>
      if hasOwn "toString" props then TypeError else OK "[object Object]"
  end.

(** [items.join(sep)] on an array of values. *)
Definition joinValues (sep : string) (items : list value) : result string :=
  parts <- mapM (fun x => if nullish x then OK EmptyString else ToString x) items ;;
  OK (JsString.join sep parts).

(** [m.set(k, v)] on a [Map], kept in insertion order. *)
Fixpoint mapSet (k : string) (v : value) (m : list (string * value))
  : list (string * value) :=
  match m with
  | [] => [(k, v)]
  | (k', v') :: r =>
      if String.eqb k' k then (k, v) :: r else (k', v') :: mapSet k v r
  end.

End Js.

(** ** Normalizer *)

Module Normalizer.
Import Js.

(** [p[0]?.toUpperCase() + p.slice(1)] *)
Definition capitalize (p : string) : string :=
  match p with
  | EmptyString => "undefined"
  | String c r => String (JsString.upperChar c) r
  end.

(** The chain after the two guards of [rawToPascal], on a string. *)
Definition pascal (raw : string) : string :=
  JsString.join ""
    (List.map capitalize
       (List.filter (fun p => negb (JsString.isEmpty p))
          (JsString.split "_" (JsString.toLowerCase (JsString.stripUnderscore raw))))).

Definition rawToPascal (raw : value) : result value :=
  if negb (truthy raw) then OK (VStr "")
  else
    s <- ToString raw ;;
    if JsString.testHashName s then OK raw
    else match raw with
         | VStr r => OK (VStr (pascal r))
         | _ => TypeError    (* no [replace] method *)
         end.

Definition normalizeApiSet (n : value) : result string :=
  apiset <- read n "apiset" ;;
  match or apiset (VStr "client") with
  | VStr s => OK (JsString.toLowerCase s)
  | _ => TypeError           (* no [toLowerCase] method *)
  end.

Fixpoint examplesLoop (exs : list value) (m : list (string * value))
  : result (list (string * value)) :=
  match exs with
  | [] => OK m
  | ex :: r =>
      if negb (truthy ex) then examplesLoop r m
      else match ex with
           | VStr _ => examplesLoop r m
           | _ =>
               match or (get ex "lang") (VStr "") with
               | VStr l =>
                   let lang := JsString.toLowerCase l in
                   if JsString.isEmpty lang then examplesLoop r m
                   else examplesLoop r (mapSet lang (or (get ex "code") (VStr "")) m)
               | _ => TypeError
               end
           end
  end.

Definition toExamplesMap (examples : value) : result (list (string * value)) :=
  match examples with
  | VArr exs => examplesLoop exs []
  | _ => OK []
  end.

(** The template literal mapped over [n.params]. *)
Definition paramText (p : value) : result string :=
  if nullish p then TypeError
  else
    a <- ToString (or (get p "name") (VStr "")) ;;
    b <- ToString (or (get p "type") (VStr "")) ;;
    c <- ToString (or (get p "description") (VStr "")) ;;
    OK (a ++ " " ++ b ++ " " ++ c)%string.

(** [(n.params || []).map(...).join(" ")] *)
Definition paramsText (params : value) : result string :=
  match or params (VArr []) with
  | VArr ps => parts <- mapM paramText ps ;; OK (JsString.join " " parts)
  | _ => TypeError           (* no [map] method *)
  end.

(** An element of the flattened collection: the properties copied from
    the payload by the spread, and the seven properties written after
    it, which take precedence over copied ones of the same name. *)
Record entry : Type := mkEntry {
  rest : list (string * value);
  ns : value;
  hash : value;
  name : value;
  apiset : string;
  luaName : value;
  exMap : list (string * value);
  searchText : string
}.

(** The body of the inner loop of [flatten]. *)
Definition normalize (nsKey hashKey : string) (n0 : value) : result entry :=
  let n := or n0 (VObj []) in
  let hash' := or (get n "hash") (VStr hashKey) in
  let name' := or (get n "name") (VStr "") in
  apiset' <- normalizeApiSet n ;;
  luaName' <- rawToPascal name' ;;
  exMap' <- toExamplesMap (get n "examples") ;;
  params' <- paramsText (get n "params") ;;
  joined <- joinValues (String "010" "")
              [ name'; luaName'; hash'; VStr nsKey;
                or (get n "description") (VStr "");
                VStr params';
                or (get n "results") (VStr "");
                or (get n "resultsDescription") (VStr "") ] ;;
  OK {| rest := ownEntries n;
        ns := or (get n "ns") (VStr nsKey);
        hash := hash';
        name := name';
        apiset := apiset';
        luaName := luaName';
        exMap := exMap';
        searchText := JsString.toLowerCase joined |}.

Definition flattenNamespace (p : string * value) : result (list entry) :=
  es <- Object_entries (or (snd p) (VObj [])) ;;
  mapM (fun kv => normalize (fst p) (fst kv) (snd kv)) es.

Definition flatten (db : value) : result (list entry) :=
  nss <- Object_entries (or db (VObj [])) ;;
  groups <- mapM flattenNamespace nss ;;
  OK (List.concat groups).

End Normalizer.

(** ** Query engine *)

Module Query.
Import Js Normalizer.

(** The [value] of the four controls read by [renderList]. *)
Record controls : Type := mkControls {
  elQ : string;
  elApi : string;
  elLang : string;
  elNs : string
}.

(** [v === s] for a string [s] *)
Definition strictEqStr (v : value) (s : string) : bool :=
  match v with
  | VStr t => String.eqb t s
  | _ => false
  end.

(** The callback given to [items.filter] in [renderList]. *)
Definition keep (c : controls) (q : string) (n : entry) : bool :=
  if negb (String.eqb (elApi c) "all") && negb (String.eqb (apiset n) (elApi c)) then false
  else if negb (String.eqb (elNs c) "all") && negb (strictEqStr (ns n) (elNs c)) then false
  else if negb (JsString.isEmpty q) && negb (JsString.includes (searchText n) q) then false
  else true.

(** The constant [filtered] of [renderList]. *)
Definition filtered (c : controls) (items : list entry) : list entry :=
  let q := JsString.toLowerCase (JsString.trim (elQ c)) in
  List.filter (keep c q) items.

(** [s.add(x)] on a [Set] of strings, kept in insertion order. *)
Definition setAdd (s : list string) (x : string) : list string :=
  if existsb (String.eqb x) s then s else s ++ [x].

(** [[...new Set(arr)]] *)
Definition unique (arr : list string) : list string :=
  List.fold_left setAdd arr [].

(** [arr.sort(comparefn)]: for a consistent comparator, the stable
    sorted arrangement, computed here by insertion. *)
Section Sort.

Variable comparefn : string -> string -> Z.

Fixpoint insert (x : string) (l : list string) : list string :=
  match l with
  | [] => [x]
  | y :: r => if (comparefn x y <? 0)%Z then x :: y :: r else y :: insert x r
  end.

Definition sort (arr : list string) : list string :=
  List.fold_left (fun acc x => insert x acc) arr [].

End Sort.

(** The strings of a list of values; [None] when one of them is not a
    string: what [sort] then does depends on which of its elements the
    engine passes to the comparator as receiver of [localeCompare], and
    is not modelled. *)
Fixpoint strings (vs : list value) : option (list string) :=
  match vs with
  | [] => Some []
  | VStr s :: r => option_map (cons s) (strings r)
  | _ => None
  end.

(** The constant [namespaces] of [main]:
    [unique(items.map(n => n.ns).filter(Boolean)).sort((a, b) => a.localeCompare(b))]. *)
Definition namespaces (localeCompare : string -> string -> Z) (items : list entry)
  : option (list string) :=
  option_map (fun names => sort localeCompare (unique names))
    (strings (List.filter truthy (List.map ns items))).

(** The same constant on values of any type, where the script throws.

    [sameValueZero]: the equality of the elements of a [Set]:
    primitives by value; an array or an object only equals itself, and
    each namespace value of a collection is an object of its own. *)
Definition sameValueZero (v w : value) : bool :=
  match v, w with
  | VUndefined, VUndefined => true
  | VNull, VNull => true
  | VBool a, VBool b => Bool.eqb a b
  | VNum a, VNum b => Z.eqb a b
  | VStr a, VStr b => String.eqb a b
  | _, _ => false
  end.

Definition setAddValue (s : list value) (x : value) : list value :=
  if existsb (sameValueZero x) s then s else s ++ [x].

Definition uniqueValues (arr : list value) : list value :=
  List.fold_left setAddValue arr [].

(** [(a, b) => a.localeCompare(b)]: only a string has the method, and
    the argument is converted to a string. *)
Definition compareNames (localeCompare : string -> string -> Z) (a b : value) : result Z :=
  match a with
  | VStr s => t <- ToString b ;; OK (localeCompare s t)
  | _ => TypeError
  end.

(** [arr.sort(comparefn)] for a comparator that may throw. Which pairs
    an engine compares is its own choice; insertion stands for it. The
    outcome does not depend on that choice when every element is a
    string (no call throws) and when there are two elements or more and
    none is a string (every call throws). *)
Fixpoint insertValue (localeCompare : string -> string -> Z) (x : value) (l : list value)
  : result (list value) :=
  match l with
  | [] => OK [x]
  | y :: r =>
      c <- compareNames localeCompare x y ;;
      if (c <? 0)%Z then OK (x :: y :: r)
      else r' <- insertValue localeCompare x r ;; OK (y :: r')
  end.

Definition sortValues (localeCompare : string -> string -> Z) (arr : list value)
  : result (list value) :=
  List.fold_left (fun acc x => a <- acc ;; insertValue localeCompare x a) arr (OK []).

Definition namespaceValues (localeCompare : string -> string -> Z) (items : list entry)
  : result (list value) :=
  sortValues localeCompare (uniqueValues (List.filter truthy (List.map ns items))).

(** Comparison of strings by character code: a comparator on which the
    namespace list can be run. *)
Definition compareCodes (a b : string) : Z :=
  match String.compare a b with
  | Lt => (-1)%Z
  | Eq => 0%Z
  | Gt => 1%Z
  end.

End Query.

(** ** Deep-link codec *)

Module DeepLink.

(** The address of the page as the codec sees it: [location.hash], and
    the name/value pairs of [new URL(location.href).searchParams] in
    order. Scheme, host and path play no role, and the browser's
    writing of the pairs into the address and reading them back is
    taken to give the same pairs. *)
Record location : Type := mkLocation {
  hash : string;
  searchParams : list (string * string)
}.

(** [URLSearchParams.prototype.delete] *)
Definition delete (name : string) (ps : list (string * string)) : list (string * string) :=
  List.filter (fun p => negb (String.eqb (fst p) name)) ps.

(** [URLSearchParams.prototype.set] *)
Fixpoint set (name v : string) (ps : list (string * string)) : list (string * string) :=
  match ps with
  | [] => [(name, v)]
  | (k, w) :: r =>
      if String.eqb k name then (name, v) :: delete name r
      else (k, w) :: set name v r
  end.

(** [URLSearchParams.prototype.get] *)
Fixpoint get (name : string) (ps : list (string * string)) : option string :=
  match ps with
  | [] => None
  | (k, w) :: r => if String.eqb k name then Some w else get name r
  end.

Definition keys (ps : list (string * string)) : list string := List.map fst ps.

Definition parseHashFragment (loc : location) : option string :=
  JsString.matchHashFragment (JsString.trim (hash loc)).

(** The [for] loop of [parseDeepLink] over the parameter names. *)
Fixpoint firstHashName (ps : list (string * string)) : option string :=
  match ps with
  | [] => None
  | (k, _) :: r =>
      if JsString.testHashName k then Some (JsString.stripUnderscore k)
      else firstHashName r
  end.

Definition nonEmpty (o : option string) : bool :=
  match o with
  | Some s => negb (JsString.isEmpty s)
  | None => false
  end.

Definition parseDeepLink (loc : location) : option string :=
  let fromHash := parseHashFragment loc in
  if nonEmpty fromHash then fromHash
  else match firstHashName (searchParams loc) with
       | Some k => Some k
       | None =>
           match get "hash" (searchParams loc) with
           | Some h =>
               if negb (JsString.isEmpty h) && JsString.test0x h then Some h else None
           | None => None
           end
       end.

(** The condition [/^_?0x/i.test(k) || k === "hash"] of [setDeepLink]. *)
Definition cleared (k : string) : bool :=
  JsString.testHashName k || String.eqb k "hash".

(** The loop of [setDeepLink] over a copy of the parameter names. *)
Definition clearStep (ps : list (string * string)) (k : string) : list (string * string) :=
  if cleared k then delete k ps else ps.

(** The address installed by [history.replaceState]: the fragment of
    the current address is carried over by [url.toString()]. *)
Definition setDeepLink (key : string) (loc : location) : location :=
  let cleared := List.fold_left clearStep (keys (searchParams loc)) (searchParams loc) in
  {| hash := hash loc;
     searchParams := set (String "_" key) "" cleared |}.

End DeepLink.


(** ** The filter on strings of code units

    The filter of [renderList] once more, on strings as sequences of
    UTF-16 code units, with [toLowerCase] as the engine computes it on
    Basic Latin and on the Greek letters U+0391 to U+03CE (other code
    units are left as they are), and [trim] on the full set of white
    space. On the strings of the embedding above it lower-cases as
    [JsString.toLowerCase] does. *)

Module Wide.

Definition str : Type := list N.

Definition ofString (s : string) : str :=
  List.map N_of_ascii (list_ascii_of_string s).

Definition within (lo hi c : N) : bool := ((lo <=? c) && (c <=? hi))%N.

(** White space and line terminators. *)
Definition isWhiteSpace (c : N) : bool :=
  (within 9 13 c || (c =? 32) || (c =? 160) || (c =? 5760) || within 8192 8202 c
   || (c =? 8232) || (c =? 8233) || (c =? 8239) || (c =? 8287) || (c =? 12288)
   || (c =? 65279))%N.

Fixpoint trimStart (s : str) : str :=
  match s with
  | [] => []
  | c :: r => if isWhiteSpace c then trimStart r else s
  end.

Fixpoint trimEnd (s : str) : str :=
  match s with
  | [] => []
  | c :: r =>
      match trimEnd r with
      | [] => if isWhiteSpace c then [] else [c]
      | t => c :: t
      end
  end.

Definition trim (s : str) : str := trimEnd (trimStart s).

(** Letters that have case. *)
Definition isCased (c : N) : bool :=
  within 65 90 c || within 97 122 c || within 913 929 c || within 931 974 c.

(** Characters that the Final_Sigma condition skips: apostrophe, full
    stop, colon, circumflex, grave accent. *)
Definition isCaseIgnorable (c : N) : bool :=
  ((c =? 39) || (c =? 46) || (c =? 58) || (c =? 94) || (c =? 96))%N.

(** The lower-case mapping of one code unit out of context: A to Z, and
    the Greek capitals U+0391 to U+03A1 and U+03A3 to U+03AB. *)
Definition lowerUnit (c : N) : N :=
  if within 65 90 c || within 913 929 c || within 931 939 c then (c + 32)%N else c.

(** A cased letter follows, after characters the condition skips. *)
Fixpoint followedByCased (s : str) : bool :=
  match s with
  | [] => false
  | c :: r => if isCaseIgnorable c then followedByCased r else isCased c
  end.

(** [before]: a cased letter precedes, before characters the condition
    skips. A capital sigma (931) in final position becomes the final
    sigma (962), elsewhere the small sigma (963). *)
Fixpoint lowerFrom (before : bool) (s : str) : str :=
  match s with
  | [] => []
  | c :: r =>
      (if (c =? 931)%N && before && negb (followedByCased r) then 962%N else lowerUnit c)
      :: lowerFrom (if isCaseIgnorable c then before else isCased c) r
  end.

Definition toLowerCase (s : str) : str := lowerFrom false s.

Fixpoint eqb (s t : str) : bool :=
  match s, t with
  | [], [] => true
  | a :: s', b :: t' => (a =? b)%N && eqb s' t'
  | _, _ => false
  end.

Fixpoint startsWith (p s : str) : bool :=
  match p, s with
  | [], _ => true
  | _ :: _, [] => false
  | a :: p', b :: s' => (a =? b)%N && startsWith p' s'
  end.

Fixpoint includes (s q : str) : bool :=
  startsWith q s
  || match s with
     | [] => false
     | _ :: r => includes r q
     end.

(** The fields of an entry that the filter reads, as strings. *)
Record item : Type := mkItem {
  apiset : str;
  ns : str;
  searchText : str
}.

Record controls : Type := mkControls {
  elQ : str;
  elApi : str;
  elNs : str
}.

Definition all : str := ofString "all".

Definition isEmpty (s : str) : bool :=
  match s with [] => true | _ => false end.

Definition keep (c : controls) (q : str) (n : item) : bool :=
  if negb (eqb (elApi c) all) && negb (eqb (apiset n) (elApi c)) then false
  else if negb (eqb (elNs c) all) && negb (eqb (ns n) (elNs c)) then false
  else if negb (isEmpty q) && negb (includes (searchText n) q) then false
  else true.

Definition filtered (c : controls) (items : list item) : list item :=
  let q := toLowerCase (trim (elQ c)) in
  List.filter (keep c q) items.

(** Two code units that are the same letter in the same or in
    different case, and two strings that differ only in letter case. *)
Definition sameLetter (a b : N) : Prop := lowerUnit a = lowerUnit b.

Definition caseVariant (s t : str) : Prop := Forall2 sameLetter s t.

End Wide.

(** ** The documented behaviour

    Definitions that follow the words of the documentation, to be
    compared with the functions above. *)

Module Spec.
Import Js Normalizer Query DeepLink.

(** Hash-style token: [0x] followed by hex digits, in either case. *)
Definition hashToken (s : string) : bool :=
  match s with
  | String "0" (String x digits) =>
      (Ascii.eqb x "x" || Ascii.eqb x "X")
      && negb (JsString.isEmpty digits) && JsString.forallb JsString.isHexDigit digits
  | _ => false
  end.

(** Hash-style pattern: an optional leading underscore, then a
    hash-style token. *)
Definition hashStyle (s : string) : bool :=
  match s with
  | String "_" r => hashToken r
  | _ => hashToken s
  end.

Definition upperFirst (segment : string) : string :=
  match segment with
  | EmptyString => EmptyString
  | String c r => String (JsString.upperChar c) r
  end.

(** Strip a single leading underscore if present, lower-case the
    remainder, split on underscore, drop empty segments, upper-case
    the first character of each segment, concatenate. *)
Definition displayName (raw : string) : string :=
  let remainder := match raw with String "_" r => r | _ => raw end in
  let segments :=
    List.filter (fun seg => negb (String.eqb seg ""))
      (JsString.split "_" (JsString.toLowerCase remainder)) in
  String.concat "" (List.map upperFirst segments).

(** [q] appears as a substring somewhere in [s]. *)
Definition substring (q s : string) : Prop :=
  exists before after : string, s = (before ++ q ++ after)%string.

(** The three predicates of the query engine, ANDed. *)
Definition satisfies (c : controls) (n : entry) : Prop :=
  (elApi c = "all" \/ apiset n = elApi c)
  /\ (elNs c = "all" \/ ns n = VStr (elNs c))
  /\ substring (JsString.toLowerCase (JsString.trim (elQ c))) (searchText n).

(** [out] is the subsequence of [items] made of exactly the elements
    that satisfy [P]: each one kept once, in place, nothing added. *)
Inductive selection {A : Type} (P : A -> Prop) : list A -> list A -> Prop :=
| selection_nil : selection P [] []
| selection_keep a items out :
    P a -> selection P items out -> selection P (a :: items) (a :: out)
| selection_skip a items out :
    ~ P a -> selection P items out -> selection P (a :: items) out.

(** Two characters that are the same letter, in the same or in
    different case. *)
Definition sameLetter (a b : ascii) : Prop :=
  a = b \/ JsString.upperChar a = b \/ JsString.lowerChar a = b.

(** Two strings that differ only in letter case. *)
Inductive caseVariant : string -> string -> Prop :=
| caseVariant_empty : caseVariant EmptyString EmptyString
| caseVariant_char a b s t :
    sameLetter a b -> caseVariant s t -> caseVariant (String a s) (String b t).

(** Decoding precedence as documented. *)
Definition fragmentKey (fragment : string) : option string :=
  match fragment with
  | String "#" r =>
      let token := match r with String "_" t => t | _ => r end in
      if hashToken token then Some token else None
  | _ => None
  end.

Fixpoint nameKey (ps : list (string * string)) : option string :=
  match ps with
  | [] => None
  | (k, _) :: r =>
      if hashStyle k then Some (match k with String "_" t => t | _ => k end)
      else nameKey r
  end.

Fixpoint hashParamKey (ps : list (string * string)) : option string :=
  match ps with
  | [] => None
  | (k, v) :: r =>
      if String.eqb k "hash" && (JsString.startsWith "0x" v || JsString.startsWith "0X" v)
      then Some v else hashParamKey r
  end.

Definition decode (loc : location) : option string :=
  match fragmentKey (hash loc) with
  | Some k => Some k
  | None =>
      match nameKey (searchParams loc) with
      | Some k => Some k
      | None => hashParamKey (searchParams loc)
      end
  end.

(** A query parameter that is not a selection: its name neither
    matches the hash-style pattern nor is [hash]. *)
Definition unrelated (p : string * string) : bool :=
  negb (hashStyle (fst p) || String.eqb (fst p) "hash").

(** A comparator that orders consistently, as [Array.prototype.sort]
    requires of its argument. *)
Definition consistent (comparefn : string -> string -> Z) : Prop :=
  (forall a b, Z.sgn (comparefn b a) = (- Z.sgn (comparefn a b))%Z)
  /\ (forall a b c, (comparefn a b <= 0)%Z -> (comparefn b c <= 0)%Z -> (comparefn a c <= 0)%Z).

(** A payload entry that is not an object. *)
Definition notObject (v : value) : bool :=
  match v with
  | VObj _ => false
  | _ => true
  end.

(** A dataset that is [null], [undefined], a boolean, a number or the
    empty string. *)
Definition emptyScalar (v : value) : bool :=
  match v with
  | VUndefined | VNull | VBool _ | VNum _ => true
  | VStr s => JsString.isEmpty s
  | VArr _ | VObj _ => false
  end.

(** The entry in which every field has its default: key and namespace
    from the enclosing mappings, empty names, API set ["client"], no
    examples, and the search text built from these. *)
Definition defaults (nsKey hashKey : string) (copied : list (string * value)) : entry :=
  {| Normalizer.rest := copied;
     Normalizer.ns := VStr nsKey;
     Normalizer.hash := VStr hashKey;
     Normalizer.name := VStr "";
     Normalizer.apiset := "client";
     Normalizer.luaName := VStr "";
     Normalizer.exMap := [];
     Normalizer.searchText :=
       JsString.toLowerCase
         (JsString.join (String "010" "") [""; ""; hashKey; nsKey; ""; ""; ""; ""]) |}.

End Spec.

(** ** Markup escaping *)

Module Html.
Import Js.

(** [s.replaceAll(c, rep)] for a one-character pattern [c] and a
    replacement [rep] without dollar sign. *)
Fixpoint replaceAll (c : ascii) (rep s : string) : string :=
  match s with
  | EmptyString => EmptyString
  | String a r =>
      if Ascii.eqb a c then (rep ++ replaceAll c rep r)%string
      else String a (replaceAll c rep r)
  end.

(** The chain of five replacements of [escapeHtml], on a string. *)
Definition escape (s : string) : string :=
  replaceAll "'" "&#39;"
    (replaceAll "034" "&quot;"
       (replaceAll ">" "&gt;"
          (replaceAll "<" "&lt;"
             (replaceAll "&" "&amp;" s)))).

(** [escapeHtml(s)]: [s ?? ""] then the chain; a value that is neither
    nullish nor a string has no [replaceAll] method. *)
Definition escapeHtml (s : value) : result string :=
  match s with
  | VUndefined | VNull => OK (escape "")
  | VStr t => OK (escape t)
  | _ => TypeError
  end.

(** The four characters that open or close markup and attribute values. *)
Definition isMarkup (c : ascii) : bool :=
  Ascii.eqb c "<" || Ascii.eqb c ">" || Ascii.eqb c "034" || Ascii.eqb c "'".

(** The five characters that [escapeHtml] replaces. *)
Definition isSpecial (c : ascii) : bool :=
  Ascii.eqb c "&" || isMarkup c.

End Html.

(** ** Signatures *)

Module Signature.
Import Js Normalizer.

(** [n.k] on an element of the flattened collection, for a property
    name [k] that [flatten] does not write itself ([results], [params],
    [description], ...): the property copied from the payload. *)
Definition copied (n : entry) (k : string) : value := lookup k (rest n).

(** [(n.params || []).map(render).join(sep)], where [render] includes
    the conversion to a string done by the template or by [join]. *)
Definition joinParams (render : value -> result string) (sep : string) (n : entry)
  : result string :=
  match or (copied n "params") (VArr []) with
  | VArr ps => parts <- mapM render ps ;; OK (JsString.join sep parts)
  | _ => TypeError             (* no [map] method *)
  end.

(** The template [`${p.type || dflt} ${p.name || "p"}`]. *)
Definition typedParam (dflt : string) (p : value) : result string :=
  if nullish p then TypeError
  else
    t <- ToString (or (get p "type") (VStr dflt)) ;;
    a <- ToString (or (get p "name") (VStr "p")) ;;
    OK (t ++ " " ++ a)%string.

(** [p.name || "p"], as [join] renders it. *)
Definition namedParam (p : value) : result string :=
  if nullish p then TypeError
  else ToString (or (get p "name") (VStr "p")).

Definition formatRawSignature (n : entry) : result string :=
  let ret := or (copied n "results") (VStr "void") in
  let name' := or (name n) (VStr "") in
  params <- joinParams (typedParam "Any") ", " n ;;
  pascalName <- rawToPascal name' ;;
  comment <- ToString pascalName ;;
  ret' <- ToString ret ;;
  raw <- ToString name' ;;
  OK ("// " ++ comment ++ String "010" "" ++ ret' ++ " " ++ raw ++ "(" ++ params ++ ");")%string.

Definition formatLuaSignature (n : entry) : result string :=
  pascalName <- rawToPascal (or (name n) (VStr "")) ;;
  params <- joinParams namedParam ", " n ;;
  let results := copied n "results" in
  let ret :=
    if truthy results && negb (Query.strictEqStr results "void")
    then "local result = " else "" in
  name' <- ToString pascalName ;;
  OK (ret ++ name' ++ "(" ++ params ++ ")")%string.

Definition formatCsSignature (n : entry) : result string :=
  pascalName <- rawToPascal (or (name n) (VStr "")) ;;
  params <- joinParams (typedParam "object") ", " n ;;
  let ret := or (copied n "results") (VStr "void") in
  ret' <- ToString ret ;;
  name' <- ToString pascalName ;;
  OK (ret' ++ " " ++ name' ++ "(" ++ params ++ ");")%string.

Definition formatJsSignature (n : entry) : result string :=
  pascalName <- rawToPascal (or (name n) (VStr "")) ;;
  params <- joinParams namedParam ", " n ;;
  name' <- ToString pascalName ;;
  OK (name' ++ "(" ++ params ++ ");")%string.

End Signature.

(** ** List and detail views *)

Module View.
Import Js Normalizer Signature.

(** The function [labelName] of [renderList], for the language [lang]
    read from the control. *)
Definition labelName (lang : string) (n : entry) : result value :=
  if String.eqb lang "lua" then
    if truthy (luaName n) then OK (luaName n) else rawToPascal (name n)
  else if String.eqb lang "cs" then rawToPascal (name n)
  else if String.eqb lang "js" then rawToPascal (name n)
  else OK (name n).

(** The search of [renderDetail]:
    [items.find(x => (x.hash || "").toLowerCase() === (hash || "").toLowerCase())]
    for a string [hash]; [None] is [undefined]. *)
Fixpoint find (items : list entry) (key : string) : result (option entry) :=
  match items with
  | [] => OK None
  | x :: r =>
      match or (hash x) (VStr "") with
      | VStr h =>
          if String.eqb (JsString.toLowerCase h) (JsString.toLowerCase key)
          then OK (Some x) else find r key
      | _ => TypeError         (* no [toLowerCase] method *)
      end
  end.

(** The constants [title] and [alt] of [renderDetail]. *)
Definition title (lang : string) (n : entry) : result value :=
  if String.eqb lang "raw" then OK (name n)
  else if String.eqb lang "lua" then OK (luaName n)
  else rawToPascal (name n).

Definition alt (lang : string) (n : entry) : value :=
  if String.eqb lang "raw" then luaName n else name n.

(** [m.get(k)] on a [Map]; [undefined] when the key is absent. *)
Definition mapGet (k : string) (m : list (string * value)) : value := lookup k m.

Record tab : Type := mkTab {
  key : string;
  label : string;
  code : value
}.

(** [n.exMap.get(lang) || format(n)] *)
Definition exampleOr (lang : string) (format : entry -> result string) (n : entry)
  : result value :=
  let ex := mapGet lang (exMap n) in
  if truthy ex then OK ex else s <- format n ;; OK (VStr s).

(** The text [escapeHtml(t.code || "")] put in the pane of a tab. *)
Definition paneText (t : tab) : result string :=
  Html.escapeHtml (or (code t) (VStr "")).

(** The constant [tabs] of [renderCodeTabs]. *)
Definition tabs (n : entry) : result (list tab) :=
  raw <- formatRawSignature n ;;
  lua <- exampleOr "lua" formatLuaSignature n ;;
  cs <- exampleOr "cs" formatCsSignature n ;;
  js <- exampleOr "js" formatJsSignature n ;;
  OK [ mkTab "raw" "raw" (VStr raw); mkTab "lua" "lua" lua;
       mkTab "cs" "c#" cs; mkTab "js" "js" js ].

(** The variable [activeKey] of [renderCodeTabs] once settled. *)
Definition activeKey (ts : list tab) (preferredLang : string) : string :=
  if existsb (fun t => String.eqb (key t) preferredLang) ts then preferredLang else "raw".

(** [s.replace(/[^a-z0-9]/ig, "")] *)
Fixpoint keepAlnum (s : string) : string :=
  match s with
  | EmptyString => EmptyString
  | String c r =>
      if JsString.isLower c || JsString.isUpper c || JsString.isDigit c
      then String c (keepAlnum r) else keepAlnum r
  end.

(** The constant [id] of [renderCodeTabs]. *)
Definition tabsId (n : entry) : result string :=
  match hash n with
  | VStr h => OK ("tabs_" ++ keepAlnum h)%string
  | _ => TypeError             (* no [replace] method *)
  end.

End View.

(** ** Source loader *)

Module Loader.
Import Js.

(** A thrown or rejected value: an [Error] with its message. *)
Inductive exn : Type := Error (message : string).

(** Settlement of an awaited promise. *)
Inductive outcome (A : Type) : Type :=
| Resolved (a : A)
| Rejected (e : exn).
Arguments Resolved {A} a.
Arguments Rejected {A} e.

(** What [fetchFirstOk] reads of a response: [res.ok], [res.status],
    and the settlement of [res.json()]. *)
Record response : Type := mkResponse {
  ok : bool;
  status : Z;
  json : outcome value
}.

(** The constant [SOURCES]. *)
Definition SOURCES_gta : list string :=
  ["./data/natives.json"; "https://runtime.fivem.net/doc/natives.json"].
Definition SOURCES_cfx : list string :=
  ["./data/natives_cfx.json"; "https://runtime.fivem.net/doc/natives_cfx.json"].

Section Fetch.

(** The network: how [fetch(url, { cache: "no-store" })] settles. *)
Variable fetch : string -> outcome response.

(** The body of the [try] block for one candidate. *)
Definition attempt (url : string) : outcome value :=
  match fetch url with
  | Rejected e => Rejected e
  | Resolved res =>
      if negb (ok res)
      then Rejected (Error (url ++ " -> HTTP " ++ JsString.ofZ (status res))%string)
      else json res
  end.

(** The loop of [fetchFirstOk], with the variable [lastErr]. *)
Fixpoint fetchLoop (urls : list string) (lastErr : option exn) : outcome value :=
  match urls with
  | [] =>
      Rejected (match lastErr with
                | Some e => e
                | None => Error "Fetch failed"
                end)
  | url :: r =>
      match attempt url with
      | Resolved v => Resolved v
      | Rejected e => fetchLoop r (Some e)
      end
  end.

Definition fetchFirstOk (urls : list string) : outcome value :=
  fetchLoop urls None.

(** The candidate does not deliver the document: the request is
    rejected, the response is not ok, or its body does not parse. *)
Definition fails (url : string) : Prop :=
  exists e, attempt url = Rejected e.

End Fetch.

End Loader.

(** ** Notions used to state properties of the views *)

Module Facts.
Import Js Normalizer.

(** The payloads of a dataset in the order in which [flatten] visits
    them, each with its namespace key and its entry key. *)
Definition payloads (db : value) : list (string * string * value) :=
  List.flat_map
    (fun p => List.map (fun kv => (fst p, fst kv, snd kv))
                (ownEntries (or (snd p) (VObj []))))
    (ownEntries (or db (VObj []))).

(** The entry comes out of the inner loop of [flatten] for the payload. *)
Definition normalizes (p : string * string * value) (e : entry) : Prop :=
  normalize (fst (fst p)) (snd (fst p)) (snd p) = OK e.

(** The key of an entry as a string, when it is one. *)
Definition keyOf (e : entry) : option string :=
  match hash e with
  | VStr h => Some h
  | _ => None
  end.

(** The language tags of an example map are distinct, non-empty and in
    lower case. *)
Definition tagged (m : list (string * value)) : Prop :=
  NoDup (List.map fst m)
  /\ Forall (fun k => k <> "" /\ JsString.toLowerCase k = k) (List.map fst m).

(** The computation returns without throwing. *)
Definition succeeds {A : Type} (r : result A) : Prop := exists a, r = OK a.

End Facts.

(** * Properties *)

(** ** Runs on concrete inputs *)


Example lower_PED : JsString.toLowerCase "PED_1z" = "ped_1z".
Proof. reflexivity. Qed.

Example split_ex : JsString.split "_" "_get__ped_" = [""; "get"; ""; "ped"; ""].
Proof. reflexivity. Qed.

Example frag_ex : JsString.matchHashFragment "#_0xAbC1" = Some "0xAbC1".
Proof. reflexivity. Qed.

Example toString_arr :
  Js.ToString (Js.VArr [Js.VNum 1; Js.VNull; Js.VArr [Js.VStr "a"; Js.VBool true]])
  = Js.OK "1,,a,true".
Proof. reflexivity. Qed.

Example pascal_ex : Normalizer.rawToPascal (Js.VStr "_get_player_ped") = Js.OK (Js.VStr "GetPlayerPed").
Proof. reflexivity. Qed.

Example flatten_scenario :
  let db := Js.VObj [("CFX", Js.VObj [("abc", Js.VObj [("hash", Js.VStr "0x1");
                         ("name", Js.VStr "_set_player_ped"); ("apiset", Js.VStr "server")])])] in
  exists e, Normalizer.flatten db = Js.OK [e]
    /\ Normalizer.ns e = Js.VStr "CFX" /\ Normalizer.luaName e = Js.VStr "SetPlayerPed"
    /\ Normalizer.apiset e = "server" /\ Normalizer.hash e = Js.VStr "0x1".
Proof. eexists. repeat split. Qed.

Example deeplink_scenario :
  DeepLink.parseDeepLink (DeepLink.mkLocation "" [("_0xABCD", ""); ("foo", "bar")]) = Some "0xABCD"
  /\ DeepLink.searchParams
       (DeepLink.setDeepLink "0x12" (DeepLink.mkLocation "" [("_0xABCD", ""); ("foo", "bar")]))
     = [("foo", "bar"); ("_0x12", "")].
Proof. split; reflexivity. Qed.

Example trim_ex : JsString.trim "  a b  " = "a b".
Proof. reflexivity. Qed.

Example ofZ_ex : (JsString.ofZ 0, JsString.ofZ (-12), JsString.ofNat 10) = ("0", "-12", "10").
Proof. reflexivity. Qed.

Example entries_str :
  Js.Object_entries (Js.VStr "ab") = Js.OK [("0", Js.VStr "a"); ("1", Js.VStr "b")].
Proof. reflexivity. Qed.

Example filter_scenario :
  Query.filtered (Query.mkControls "" "client" "raw" "all")
    [ {| Normalizer.rest := []; Normalizer.ns := Js.VStr "CFX"; Normalizer.hash := Js.VStr "0x1";
         Normalizer.name := Js.VStr "_set_player_ped"; Normalizer.apiset := "server";
         Normalizer.luaName := Js.VStr "SetPlayerPed"; Normalizer.exMap := [];
         Normalizer.searchText := "_set_player_ped" |} ]
  = [].
Proof. reflexivity. Qed.

Example namespaces_run :
  Query.namespaces Query.compareCodes
    [Spec.defaults "PLAYER" "0x1" []; Spec.defaults "" "0x2" [];
     Spec.defaults "CFX" "0x3" []; Spec.defaults "PLAYER" "0x4" []]
  = Some ["CFX"; "PLAYER"].
Proof. reflexivity. Qed.

Example examples_map_run :
  Normalizer.toExamplesMap
    (Js.VArr [Js.VObj [("lang", Js.VStr "Lua"); ("code", Js.VStr "a")]; Js.VNull; Js.VStr "x";
              Js.VObj [("code", Js.VStr "b")];
              Js.VObj [("lang", Js.VStr "lua"); ("code", Js.VStr "c")]])
  = Js.OK [("lua", Js.VStr "c")].
Proof. reflexivity. Qed.

(** ** Substring search *)

Lemma startsWith_iff (p s : string) :
  JsString.startsWith p s = true <-> exists after, s = (p ++ after)%string.
Proof.
  revert s; induction p as [|a p IH]; intros s; simpl.
  - split; [intros _; exists s; reflexivity | reflexivity].
  - destruct s as [|b s].
    + split; [discriminate | intros [after H]; discriminate H].
    + rewrite andb_true_iff, Ascii.eqb_eq, IH. split.
      * intros [Hab [after Hs]]. subst. exists after. reflexivity.
      * intros [after H]. injection H as Hb Hs. subst. split; [reflexivity | eauto].
Qed.

Lemma includes_at_start (s q : string) :
  JsString.startsWith q s = true -> JsString.includes s q = true.
Proof. intro H. destruct s; simpl; rewrite H; reflexivity. Qed.

Lemma includes_complete (before q after : string) :
  JsString.includes (before ++ q ++ after)%string q = true.
Proof.
  induction before as [|c before IH]; simpl.
  - apply includes_at_start. apply startsWith_iff. exists after. reflexivity.
  - rewrite IH. apply orb_true_r.
Qed.

Lemma includes_iff (s q : string) :
  JsString.includes s q = true <-> Spec.substring q s.
Proof.
  split.
  - induction s as [|c s IH]; simpl; rewrite orb_true_iff; intros [H | H].
    + apply startsWith_iff in H. destruct H as [after H]. exists EmptyString, after. exact H.
    + discriminate H.
    + apply startsWith_iff in H. destruct H as [after H]. exists EmptyString, after. exact H.
    + destruct (IH H) as [before [after E]]. exists (String c before), after.
      simpl. rewrite E. reflexivity.
  - intros [before [after E]]. subst s. apply includes_complete.
Qed.

Lemma includes_empty (s : string) : JsString.includes s "" = true.
Proof. destruct s; reflexivity. Qed.

(** ** The filter of [renderList] *)

Lemma strictEqStr_iff (v : Js.value) (s : string) :
  Query.strictEqStr v s = true <-> v = Js.VStr s.
Proof.
  destruct v; simpl; try (split; [discriminate | intro H; discriminate H]).
  rewrite String.eqb_eq. split; [intros ->; reflexivity | intro H; injection H as ->; reflexivity].
Qed.

Lemma keep_iff (c : Query.controls) (n : Normalizer.entry) :
  Query.keep c (JsString.toLowerCase (JsString.trim (Query.elQ c))) n = true
  <-> Spec.satisfies c n.
Proof.
  unfold Query.keep, Spec.satisfies.
  set (q := JsString.toLowerCase (JsString.trim (Query.elQ c))).
  rewrite <- includes_iff, <- strictEqStr_iff.
  destruct (String.eqb_spec (Query.elApi c) "all") as [Ha | Ha];
    destruct (String.eqb_spec (Normalizer.apiset n) (Query.elApi c)) as [Hb | Hb];
    destruct (String.eqb_spec (Query.elNs c) "all") as [Hc | Hc];
    destruct (Query.strictEqStr (Normalizer.ns n) (Query.elNs c)) eqn:Hd;
    destruct q as [|a q'] eqn:Hq; simpl;
    try rewrite includes_empty;
    try (destruct (JsString.includes (Normalizer.searchText n) (String a q')) eqn:Hi; simpl);
    split; intros H; try discriminate H; try reflexivity;
    try (repeat split; auto; fail);
    destruct H as [[H1 | H1] [[H2 | H2] H3]]; try contradiction; try discriminate; auto.
Qed.

(** C1. The list shown by the query engine is the subsequence of the
    collection made of exactly the entries that satisfy the three
    criteria together (API set equal to the selector or selector
    ["all"], namespace equal to the selector or selector ["all"],
    trimmed lower-cased query a substring of the search text): entries
    are kept in place, once, and nothing is added; it is the only such
    subsequence. *)
Theorem filtered_is_selection (c : Query.controls) (items : list Normalizer.entry) :
  Spec.selection (Spec.satisfies c) items (Query.filtered c items)
  /\ (forall out, Spec.selection (Spec.satisfies c) items out -> out = Query.filtered c items)
  /\ (JsString.trim (Query.elQ c) = ""
      -> forall n, Spec.substring (JsString.toLowerCase (JsString.trim (Query.elQ c)))
                     (Normalizer.searchText n)).
Proof.
  unfold Query.filtered. repeat split.
  - induction items as [|n items IH]; simpl.
    + constructor.
    + destruct (Query.keep c _ n) eqn:K.
      * apply Spec.selection_keep; [apply keep_iff; exact K | exact IH].
      * apply Spec.selection_skip; [| exact IH].
        intro S. apply keep_iff in S. rewrite S in K. discriminate K.
  - intros out S. induction S as [| n items out P S IH | n items out P S IH]; simpl.
    + reflexivity.
    + apply keep_iff in P. rewrite P, IH. reflexivity.
    + destruct (Query.keep c _ n) eqn:K; [| exact IH].
      apply keep_iff in K. contradiction.
  - intros E n. rewrite E. apply includes_iff. apply includes_empty.
Qed.

(** ** Letter case *)

Ltac by_cases_on_char a :=
  destruct a as [[] [] [] [] [] [] [] []]; vm_compute; intuition congruence.

Lemma lowerChar_upperChar (a : ascii) :
  JsString.lowerChar (JsString.upperChar a) = JsString.lowerChar a.
Proof. by_cases_on_char a. Qed.

Lemma lowerChar_idem (a : ascii) :
  JsString.lowerChar (JsString.lowerChar a) = JsString.lowerChar a.
Proof. by_cases_on_char a. Qed.

Lemma isWhiteSpace_upperChar (a : ascii) :
  JsString.isWhiteSpace (JsString.upperChar a) = JsString.isWhiteSpace a.
Proof. by_cases_on_char a. Qed.

Lemma isWhiteSpace_lowerChar (a : ascii) :
  JsString.isWhiteSpace (JsString.lowerChar a) = JsString.isWhiteSpace a.
Proof. by_cases_on_char a. Qed.

Lemma sameLetter_lower (a b : ascii) :
  Spec.sameLetter a b -> JsString.lowerChar a = JsString.lowerChar b.
Proof.
  intros [H | [H | H]]; subst b.
  - reflexivity.
  - symmetry. apply lowerChar_upperChar.
  - symmetry. apply lowerChar_idem.
Qed.

Lemma sameLetter_space (a b : ascii) :
  Spec.sameLetter a b -> JsString.isWhiteSpace a = JsString.isWhiteSpace b.
Proof.
  intros [H | [H | H]]; subst b.
  - reflexivity.
  - symmetry. apply isWhiteSpace_upperChar.
  - symmetry. apply isWhiteSpace_lowerChar.
Qed.

Lemma caseVariant_lower (s t : string) :
  Spec.caseVariant s t -> JsString.toLowerCase s = JsString.toLowerCase t.
Proof.
  induction 1 as [| a b s t L V IH]; simpl.
  - reflexivity.
  - unfold JsString.toLowerCase in *. simpl. rewrite IH, (sameLetter_lower a b L). reflexivity.
Qed.

Lemma caseVariant_trimStart (s t : string) :
  Spec.caseVariant s t -> Spec.caseVariant (JsString.trimStart s) (JsString.trimStart t).
Proof.
  induction 1 as [| a b s t L V IH]; simpl.
  - constructor.
  - rewrite (sameLetter_space a b L). destruct (JsString.isWhiteSpace b).
    + exact IH.
    + constructor; assumption.
Qed.

Lemma caseVariant_trimEnd (s t : string) :
  Spec.caseVariant s t -> Spec.caseVariant (JsString.trimEnd s) (JsString.trimEnd t).
Proof.
  induction 1 as [| a b s t L V IH]; simpl.
  - constructor.
  - rewrite (sameLetter_space a b L).
    destruct (JsString.trimEnd s) as [|a' s'], (JsString.trimEnd t) as [|b' t'];
      try (inversion IH; fail).
    + destruct (JsString.isWhiteSpace b).
      * constructor.
      * apply Spec.caseVariant_char; [exact L | constructor].
    + constructor; [exact L | exact IH].
Qed.

Lemma caseVariant_query (s t : string) :
  Spec.caseVariant s t ->
  JsString.toLowerCase (JsString.trim s) = JsString.toLowerCase (JsString.trim t).
Proof.
  intro V. apply caseVariant_lower. unfold JsString.trim.
  apply caseVariant_trimEnd, caseVariant_trimStart, V.
Qed.

Lemma lowerUnit_of_ascii (c : ascii) :
  Wide.lowerUnit (N_of_ascii c) = N_of_ascii (JsString.lowerChar c)
  /\ N.eqb (N_of_ascii c) 931 = false.
Proof. destruct c as [[] [] [] [] [] [] [] []]; split; reflexivity. Qed.

(** On the strings of the embedding, the lower-casing on code units is
    the lower-casing of the embedding. *)
Lemma toLowerCase_ofString (s : string) :
  Wide.toLowerCase (Wide.ofString s) = Wide.ofString (JsString.toLowerCase s).
Proof.
  unfold Wide.toLowerCase. generalize false.
  induction s as [|c r IH]; intro b; [reflexivity |].
  change (Wide.ofString (String c r)) with (N_of_ascii c :: Wide.ofString r).
  change (Wide.ofString (JsString.toLowerCase (String c r)))
    with (N_of_ascii (JsString.lowerChar c) :: Wide.ofString (JsString.toLowerCase r)).
  cbn [Wide.lowerFrom]. destruct (lowerUnit_of_ascii c) as [L S].
  rewrite S, L, IH. reflexivity.
Qed.

(** C7, as it stands, fails: the queries capital sigma, capital alpha,
    capital sigma (931, 913, 931) and small sigma, small alpha, small
    sigma (963, 945, 963) differ only in letter case, yet on a
    collection with one entry whose search text is the second string
    the first query lists nothing and the second lists the entry: the
    first lower-cases to a string that ends in the final sigma (962). *)
Lemma filtered_case_counterexample :
  Wide.caseVariant [931; 913; 931]%N [963; 945; 963]%N
  /\ Wide.toLowerCase [931; 913; 931]%N = [963; 945; 962]%N
  /\ Wide.filtered (Wide.mkControls [931; 913; 931]%N Wide.all Wide.all)
       [Wide.mkItem (Wide.ofString "client") (Wide.ofString "CFX") [963; 945; 963]%N]
     = []
  /\ Wide.filtered (Wide.mkControls [963; 945; 963]%N Wide.all Wide.all)
       [Wide.mkItem (Wide.ofString "client") (Wide.ofString "CFX") [963; 945; 963]%N]
     = [Wide.mkItem (Wide.ofString "client") (Wide.ofString "CFX") [963; 945; 963]%N].
Proof.
  split; [| repeat split].
  repeat constructor.
Qed.

(** C7, amended. The free-text filter does not distinguish the case of
    the letters A to Z: two queries that differ only in the case of
    these letters, with the same API-set and namespace selectors, give
    the same result list on every collection. *)
Theorem filtered_case_insensitive (c1 c2 : Query.controls) (items : list Normalizer.entry) :
  Spec.caseVariant (Query.elQ c1) (Query.elQ c2) ->
  Query.elApi c1 = Query.elApi c2 ->
  Query.elNs c1 = Query.elNs c2 ->
  Query.filtered c1 items = Query.filtered c2 items.
Proof.
  intros V Ha Hn. unfold Query.filtered.
  rewrite (caseVariant_query _ _ V).
  apply List.filter_ext. intro n. unfold Query.keep. rewrite Ha, Hn. reflexivity.
Qed.

(** ** Display names *)

Lemma hashToken_test0x (s : string) :
  Spec.hashToken s = true -> JsString.test0x s = true.
Proof.
  destruct s as [|c [|x r]]; try discriminate.
  - destruct c as [[] [] [] [] [] [] [] []]; discriminate.
  - destruct c as [[] [] [] [] [] [] [] []]; try discriminate.
    simpl. rewrite !andb_true_iff. tauto.
Qed.

Lemma hashToken_nonempty (s : string) :
  Spec.hashToken s = true -> JsString.isEmpty s = false.
Proof. destruct s; [discriminate | reflexivity]. Qed.

Lemma hashStyle_testHashName (s : string) :
  Spec.hashStyle s = true -> JsString.testHashName s = true.
Proof.
  destruct s as [|c r]; [discriminate |].
  destruct c as [[] [] [] [] [] [] [] []];
    try exact (hashToken_test0x (String _ r)).
  exact (hashToken_test0x r).
Qed.

Lemma capitalize_segments (l : list string) :
  List.map Normalizer.capitalize (List.filter (fun p => negb (JsString.isEmpty p)) l)
  = List.map Spec.upperFirst (List.filter (fun seg => negb (String.eqb seg "")) l).
Proof.
  induction l as [|p l IH]; simpl.
  - reflexivity.
  - destruct p as [|c p]; simpl; [exact IH | rewrite IH; reflexivity].
Qed.

Lemma pascal_displayName (raw : string) :
  Normalizer.pascal raw = Spec.displayName raw.
Proof.
  unfold Normalizer.pascal, Spec.displayName, JsString.join.
  rewrite capitalize_segments. reflexivity.
Qed.

Lemma rawToPascal_string (raw : string) :
  Normalizer.rawToPascal (Js.VStr raw)
  = Js.OK (Js.VStr (if JsString.testHashName raw then raw else Normalizer.pascal raw)).
Proof.
  unfold Normalizer.rawToPascal. destruct raw as [|c r].
  - reflexivity.
  - simpl Js.truthy. simpl negb. cbv iota. simpl Js.ToString. unfold Js.bind.
    destruct (JsString.testHashName (String c r)); reflexivity.
Qed.

(** C9. On an identifier that matches the hash-style pattern (optional
    leading underscore, [0x], hex digits, in either case) the
    display-name transform returns the identifier itself, underscore
    and letter case included. *)
Theorem rawToPascal_hashStyle_identity (raw : string) :
  Spec.hashStyle raw = true ->
  Normalizer.rawToPascal (Js.VStr raw) = Js.OK (Js.VStr raw).
Proof.
  intro H. rewrite rawToPascal_string, (hashStyle_testHashName raw H). reflexivity.
Qed.

(** C2, as it stands, fails: [0x_g] does not match the hash-style
    pattern, yet it is returned as it is, while the documented chain of
    steps would give [0xG]. *)
Lemma rawToPascal_not_hashStyle_counterexample :
  Spec.hashStyle "0x_g" = false
  /\ Normalizer.rawToPascal (Js.VStr "0x_g") = Js.OK (Js.VStr "0x_g")
  /\ Spec.displayName "0x_g" = "0xG"
  /\ Normalizer.rawToPascal (Js.VStr "0x_g") <> Js.OK (Js.VStr (Spec.displayName "0x_g")).
Proof. repeat split. discriminate. Qed.

(** C2, amended. On an identifier that does not begin with an optional
    underscore followed by [0x] (in either case), the display-name
    transform strips one leading underscore, lower-cases the remainder,
    splits it on underscores, drops the empty segments, upper-cases the
    first character of each segment and concatenates them; so
    [_get_player_ped] and [_get_PLAYER_ped] both give [GetPlayerPed]. *)
Theorem rawToPascal_displayName (raw : string) :
  (JsString.testHashName raw = false ->
   Normalizer.rawToPascal (Js.VStr raw) = Js.OK (Js.VStr (Spec.displayName raw)))
  /\ Normalizer.rawToPascal (Js.VStr "_get_player_ped") = Js.OK (Js.VStr "GetPlayerPed")
  /\ Normalizer.rawToPascal (Js.VStr "_get_PLAYER_ped") = Js.OK (Js.VStr "GetPlayerPed").
Proof.
  split; [| split; reflexivity].
  intro H. rewrite rawToPascal_string, H, pascal_displayName. reflexivity.
Qed.

(** ** API set *)

Lemma toLowerCase_empty (s : string) : JsString.toLowerCase s = "" -> s = "".
Proof. destruct s; [reflexivity | discriminate]. Qed.

Lemma normalizeApiSet_unfold (n : Js.value) :
  Normalizer.normalizeApiSet n
  = if Js.nullish n then Js.TypeError
    else match Js.or (Js.get n "apiset") (Js.VStr "client") with
         | Js.VStr s => Js.OK (JsString.toLowerCase s)
         | _ => Js.TypeError
         end.
Proof.
  unfold Normalizer.normalizeApiSet, Js.read. destruct (Js.nullish n); reflexivity.
Qed.

Lemma normalizeApiSet_nonempty (n : Js.value) (a : string) :
  Normalizer.normalizeApiSet n = Js.OK a -> a <> "".
Proof.
  rewrite normalizeApiSet_unfold. destruct (Js.nullish n); [discriminate |].
  unfold Js.or.
  destruct (Js.truthy (Js.get n "apiset")) eqn:T.
  - destruct (Js.get n "apiset") as [ | | b | z | s | l | ps]; try discriminate.
    intros H E. injection H as H. subst a. apply toLowerCase_empty in E. subst s.
    discriminate T.
  - intros H E. injection H as H. subst a. discriminate E.
Qed.

Lemma mapM_In {A B : Type} (f : A -> Js.result B) (l : list A) (l' : list B) :
  Js.mapM f l = Js.OK l' ->
  forall b, In b l' -> exists a, In a l /\ f a = Js.OK b.
Proof.
  revert l'; induction l as [|a l IH]; intros l' H b Hb; simpl in H.
  - injection H as H. subst l'. destruct Hb.
  - destruct (f a) as [b0 |] eqn:Fa; [| discriminate H]. simpl in H.
    destruct (Js.mapM f l) as [bs |] eqn:M; [| discriminate H]. simpl in H.
    injection H as H. subst l'. destruct Hb as [Hb | Hb].
    + subst b0. exists a. split; [left; reflexivity | exact Fa].
    + destruct (IH bs eq_refl b Hb) as [a' [Ia Fa']]. exists a'. split; [right; exact Ia | exact Fa'].
Qed.

Lemma normalize_apiset (nsKey hashKey : string) (n0 : Js.value) (e : Normalizer.entry) :
  Normalizer.normalize nsKey hashKey n0 = Js.OK e ->
  Normalizer.normalizeApiSet (Js.or n0 (Js.VObj [])) = Js.OK (Normalizer.apiset e).
Proof.
  unfold Normalizer.normalize.
  destruct (Normalizer.normalizeApiSet _) as [a |]; [| discriminate]. simpl.
  destruct (Normalizer.rawToPascal _) as [l |]; [| discriminate]. simpl.
  destruct (Normalizer.toExamplesMap _) as [m |]; [| discriminate]. simpl.
  destruct (Normalizer.paramsText _) as [p |]; [| discriminate]. simpl.
  destruct (Js.joinValues _ _) as [j |]; [| discriminate]. simpl.
  intro H. injection H as H. subst e. reflexivity.
Qed.

Lemma flatten_In (db : Js.value) (items : list Normalizer.entry) :
  Normalizer.flatten db = Js.OK items ->
  forall e, In e items ->
  exists nsKey hashKey n0, Normalizer.normalize nsKey hashKey n0 = Js.OK e.
Proof.
  unfold Normalizer.flatten.
  destruct (Js.Object_entries _) as [nss |]; [| discriminate]. simpl.
  destruct (Js.mapM Normalizer.flattenNamespace nss) as [groups |] eqn:M; [| discriminate]. simpl.
  intros H e He. injection H as H. subst items.
  apply in_concat in He. destruct He as [g [Hg He]].
  destruct (mapM_In _ _ _ M g Hg) as [p [_ Fp]].
  unfold Normalizer.flattenNamespace in Fp.
  destruct (Js.Object_entries _) as [es |]; [| discriminate]. simpl in Fp.
  destruct (mapM_In _ _ _ Fp e He) as [kv [_ Fkv]].
  exists (fst p), (fst kv), (snd kv). exact Fkv.
Qed.

Lemma get_or_empty (n0 : Js.value) (k : string) :
  Js.get (Js.or n0 (Js.VObj [])) k = Js.get n0 k.
Proof.
  unfold Js.or. destruct (Js.truthy n0) eqn:T; [reflexivity |].
  destruct n0; try reflexivity; discriminate T.
Qed.

Lemma normalizeApiSet_not_string (n : Js.value) :
  Js.truthy (Js.get n "apiset") = true ->
  (forall s, Js.get n "apiset" <> Js.VStr s) ->
  Normalizer.normalizeApiSet n = Js.TypeError.
Proof.
  intros T N. rewrite normalizeApiSet_unfold. destruct (Js.nullish n); [reflexivity |].
  unfold Js.or. rewrite T.
  destruct (Js.get n "apiset"); try reflexivity. contradiction (N s). reflexivity.
Qed.

(** C5, as it stands, fails: a payload whose [apiset] is the number 5
    has the field present and not empty, yet there is no normalized
    API set: normalizing throws, and so does flattening a dataset that
    holds the payload. *)
Lemma normalizeApiSet_counterexample :
  Js.get (Js.VObj [("name", Js.VStr "FOO"); ("apiset", Js.VNum 5)]) "apiset" = Js.VNum 5
  /\ Normalizer.normalizeApiSet (Js.VObj [("name", Js.VStr "FOO"); ("apiset", Js.VNum 5)])
     = Js.TypeError
  /\ Normalizer.flatten
       (Js.VObj [("CFX", Js.VObj [("0x1", Js.VObj [("name", Js.VStr "FOO");
                                                    ("apiset", Js.VNum 5)])])])
     = Js.TypeError.
Proof. repeat split. Qed.

(** C5, amended. For a payload (which [flatten] makes an object when it
    is falsy): the API set is the payload's [apiset] lower-cased when
    that field is a non-empty string; it is ["client"] when the field
    is absent or falsy (empty string, [null], [0], [false]); when the
    field is truthy and not a string, and when the payload itself is
    [null] or [undefined], normalizing throws and gives no entry. So
    no normalized API set, and none in a flattened collection, is the
    empty string. *)
Theorem normalizeApiSet_default (n db : Js.value) :
  (forall s, Js.get n "apiset" = Js.VStr s -> s <> "" ->
     Normalizer.normalizeApiSet n = Js.OK (JsString.toLowerCase s))
  /\ (Js.nullish n = false -> Js.truthy (Js.get n "apiset") = false ->
      Normalizer.normalizeApiSet n = Js.OK "client")
  /\ (Js.truthy (Js.get n "apiset") = true ->
      (forall s, Js.get n "apiset" <> Js.VStr s) ->
      Normalizer.normalizeApiSet n = Js.TypeError)
  /\ (Js.nullish n = true -> Normalizer.normalizeApiSet n = Js.TypeError)
  /\ (forall a, Normalizer.normalizeApiSet n = Js.OK a -> a <> "")
  /\ (forall nsKey hashKey e, Normalizer.normalize nsKey hashKey n = Js.OK e ->
        Normalizer.normalizeApiSet (Js.or n (Js.VObj [])) = Js.OK (Normalizer.apiset e))
  /\ (forall items, Normalizer.flatten db = Js.OK items ->
        Forall (fun e => Normalizer.apiset e <> "") items).
Proof.
  repeat split.
  - intros s G Hs. rewrite normalizeApiSet_unfold.
    destruct n; try discriminate G. simpl Js.nullish. cbv iota. rewrite G.
    destruct s; [contradiction Hs; reflexivity | reflexivity].
  - intros N T. rewrite normalizeApiSet_unfold, N. unfold Js.or. rewrite T. reflexivity.
  - apply normalizeApiSet_not_string.
  - intro N. rewrite normalizeApiSet_unfold, N. reflexivity.
  - apply normalizeApiSet_nonempty.
  - intros nsKey hashKey e H. exact (normalize_apiset _ _ _ _ H).
  - intros items H. apply Forall_forall. intros e He.
    destruct (flatten_In db items H e He) as [nsKey [hashKey [n0 N]]].
    apply normalize_apiset in N. apply normalizeApiSet_nonempty in N. exact N.
Qed.

(** ** Malformed input *)

Lemma normalize_notObject (nsKey hashKey : string) (n0 : Js.value) :
  Spec.notObject n0 = true ->
  Normalizer.normalize nsKey hashKey n0
  = Js.OK (Spec.defaults nsKey hashKey (Js.ownEntries n0)).
Proof.
  intro H. destruct n0 as [ | | b | z | s | l | ps]; try discriminate H; try reflexivity.
  - destruct b; reflexivity.
  - unfold Normalizer.normalize, Js.or. simpl Js.truthy.
    destruct (Z.eqb z 0); reflexivity.
  - destruct s; reflexivity.
Qed.

Lemma flatten_emptyScalar (db : Js.value) :
  Spec.emptyScalar db = true -> Normalizer.flatten db = Js.OK [].
Proof.
  intro H. destruct db as [ | | b | z | s | l | ps]; try discriminate H; try reflexivity.
  - destruct b; reflexivity.
  - unfold Normalizer.flatten, Js.or. simpl Js.truthy. destruct (Z.eqb z 0); reflexivity.
  - destruct s; [reflexivity | discriminate H].
Qed.

(** C8, as it stands, fails: a dataset that is the string ["a"] is not
    a nested mapping, yet it flattens to one entry; and a payload whose
    [apiset] is a number makes flattening throw. *)
Lemma flatten_malformed_counterexample :
  Normalizer.flatten (Js.VStr "a")
    = Js.OK [Spec.defaults "0" "0" [("0", Js.VStr "a")]]
  /\ Normalizer.flatten (Js.VStr "a") <> Js.OK []
  /\ Normalizer.flatten
       (Js.VObj [("CFX", Js.VObj [("0x1", Js.VObj [("apiset", Js.VNum 5)])])])
     = Js.TypeError.
Proof. repeat split. discriminate. Qed.

(** C8, amended. A payload entry that is not an object ([null], a
    boolean, a number, a string, an array) is normalized without error
    to the entry with every field at its default, as the empty object
    is; it differs from the entry of the empty object only by the
    indexed elements that a non-empty string or array carries over. A
    dataset that is [null], [undefined], a boolean, a number or the
    empty string flattens to the empty collection without error. *)
Theorem flatten_defaulting (nsKey hashKey : string) (n0 db : Js.value) :
  Normalizer.normalize nsKey hashKey (Js.VObj [])
    = Js.OK (Spec.defaults nsKey hashKey [])
  /\ (Spec.notObject n0 = true ->
      Normalizer.normalize nsKey hashKey n0
        = Js.OK (Spec.defaults nsKey hashKey (Js.ownEntries n0))
      /\ ((forall s, n0 <> Js.VStr s) -> (forall l, n0 <> Js.VArr l) -> Js.ownEntries n0 = []))
  /\ (Spec.emptyScalar db = true -> Normalizer.flatten db = Js.OK []).
Proof.
  split; [reflexivity | split].
  - intro H. split; [apply normalize_notObject; exact H |].
    intros Hs Hl. destruct n0; try reflexivity.
    + contradiction (Hs s). reflexivity.
    + contradiction (Hl items). reflexivity.
    + discriminate H.
  - apply flatten_emptyScalar.
Qed.

(** ** Deep links: decoding *)

Lemma isHashToken_test0x (t : string) :
  JsString.isHashToken t = true -> JsString.test0x t = true.
Proof. exact (hashToken_test0x t). Qed.

Lemma testHashName_strip (k : string) :
  JsString.testHashName k = true -> JsString.test0x (JsString.stripUnderscore k) = true.
Proof.
  destruct k as [|c r]; [discriminate |].
  destruct c as [[] [] [] [] [] [] [] []]; simpl; intro H; exact H.
Qed.

Lemma test0x_no_underscore (k : string) :
  JsString.test0x k = true -> JsString.startsWith "_" k = false.
Proof.
  destruct k as [|c r]; [discriminate |].
  destruct c as [[] [] [] [] [] [] [] []]; simpl; intro H; try reflexivity; discriminate H.
Qed.

Lemma test0x_nonempty (k : string) :
  JsString.test0x k = true -> JsString.isEmpty k = false.
Proof. destruct k; [discriminate | reflexivity]. Qed.

Lemma matchHashFragment_token (raw t : string) :
  JsString.matchHashFragment raw = Some t -> JsString.isHashToken t = true.
Proof.
  destruct raw as [|c r]; [discriminate |].
  destruct c as [[] [] [] [] [] [] [] []]; try discriminate. simpl.
  destruct (JsString.isHashToken (JsString.stripUnderscore r)) eqn:E; [| discriminate].
  intro H. injection H as H. subst t. exact E.
Qed.

Lemma matchHashFragment_form (raw t : string) :
  JsString.matchHashFragment raw = Some t <->
  JsString.isHashToken t = true
  /\ (raw = String "#" t \/ raw = String "#" (String "_" t)).
Proof.
  split.
  - intro H. split; [exact (matchHashFragment_token raw t H) |].
    destruct raw as [|c r]; [discriminate |].
    destruct c as [[] [] [] [] [] [] [] []]; try discriminate. simpl in H.
    destruct (JsString.isHashToken (JsString.stripUnderscore r)); [| discriminate].
    injection H as H. subst t.
    destruct r as [|d r]; [left; reflexivity |].
    destruct d as [[] [] [] [] [] [] [] []]; simpl; auto.
  - intros [T [E | E]]; subst raw.
    + pose proof (isHashToken_test0x t T) as X.
      apply test0x_no_underscore in X.
      unfold JsString.matchHashFragment.
      replace (JsString.stripUnderscore t) with t; [rewrite T; reflexivity |].
      destruct t as [|c r]; [reflexivity |].
      destruct c as [[] [] [] [] [] [] [] []]; try reflexivity. discriminate X.
    + simpl. rewrite T. reflexivity.
Qed.

Lemma firstHashName_find (ps : list (string * string)) :
  DeepLink.firstHashName ps
  = option_map (fun p => JsString.stripUnderscore (fst p))
      (List.find (fun p => JsString.testHashName (fst p)) ps).
Proof.
  induction ps as [|[k v] ps IH]; simpl.
  - reflexivity.
  - destruct (JsString.testHashName k); [reflexivity | exact IH].
Qed.

Lemma get_find (name : string) (ps : list (string * string)) :
  DeepLink.get name ps
  = option_map snd (List.find (fun p => String.eqb (fst p) name) ps).
Proof.
  induction ps as [|[k v] ps IH]; simpl.
  - reflexivity.
  - destruct (String.eqb k name); [reflexivity | exact IH].
Qed.

Lemma parseHashFragment_nonEmpty (loc : DeepLink.location) (t : string) :
  DeepLink.parseHashFragment loc = Some t -> DeepLink.nonEmpty (Some t) = true.
Proof.
  intro H. apply matchHashFragment_token, isHashToken_test0x, test0x_nonempty in H.
  simpl. rewrite H. reflexivity.
Qed.

(** C3, as it stands, fails: with no fragment, a parameter named
    [0xzz] is not hash-style (its [0x] is not followed by hex digits),
    yet its name is the decoded key; and a second parameter named
    [hash] whose value starts with [0x] is not looked at. *)
Lemma parseDeepLink_precedence_counterexample :
  (Spec.hashStyle "0xzz" = false
   /\ Spec.decode (DeepLink.mkLocation "" [("0xzz", "")]) = None
   /\ DeepLink.parseDeepLink (DeepLink.mkLocation "" [("0xzz", "")]) = Some "0xzz")
  /\ (Spec.decode (DeepLink.mkLocation "" [("hash", "zz"); ("hash", "0x12")]) = Some "0x12"
      /\ DeepLink.parseDeepLink (DeepLink.mkLocation "" [("hash", "zz"); ("hash", "0x12")]) = None).
Proof. repeat split. Qed.

(** C3, amended. Decoding tries, in this order, first match wins:
    (1) the fragment, trimmed, of the form [#], optional [_], then a
    hash-style token ([0x] plus hex digits), which yields the token;
    (2) the first query parameter whose name begins with an optional
    underscore and [0x] (in either case; hex digits are not required),
    which yields the name without one leading underscore;
    (3) the first query parameter named [hash], when its value begins
    with [0x] (in either case), which yields the value;
    (4) otherwise nothing. *)
Theorem parseDeepLink_precedence (loc : DeepLink.location) :
  (forall t, JsString.isHashToken t = true ->
     JsString.trim (DeepLink.hash loc) = String "#" t
     \/ JsString.trim (DeepLink.hash loc) = String "#" (String "_" t) ->
     DeepLink.parseDeepLink loc = Some t)
  /\ (DeepLink.parseHashFragment loc = None ->
      (forall p, List.find (fun p => JsString.testHashName (fst p)) (DeepLink.searchParams loc) = Some p ->
         DeepLink.parseDeepLink loc = Some (JsString.stripUnderscore (fst p)))
      /\ (List.find (fun p => JsString.testHashName (fst p)) (DeepLink.searchParams loc) = None ->
          (forall p, List.find (fun p => String.eqb (fst p) "hash") (DeepLink.searchParams loc) = Some p ->
             DeepLink.parseDeepLink loc
             = if JsString.test0x (snd p) then Some (snd p) else None)
          /\ (List.find (fun p => String.eqb (fst p) "hash") (DeepLink.searchParams loc) = None ->
              DeepLink.parseDeepLink loc = None))).
Proof.
  split.
  - intros t T E.
    assert (F : DeepLink.parseHashFragment loc = Some t).
    { apply matchHashFragment_form. split; assumption. }
    unfold DeepLink.parseDeepLink.
    rewrite F, (parseHashFragment_nonEmpty loc t F). reflexivity.
  - intro F. unfold DeepLink.parseDeepLink.
    rewrite F, firstHashName_find, get_find. simpl.
    split.
    + intros p E. rewrite E. reflexivity.
    + intro E. rewrite E. simpl. split.
      * intros p G. rewrite G. simpl.
        destruct (JsString.test0x (snd p)) eqn:X.
        -- rewrite (test0x_nonempty _ X). reflexivity.
        -- rewrite andb_false_r. reflexivity.
      * intros G. rewrite G. reflexivity.
Qed.

(** C10. Whatever the address, decoding yields nothing or a key that
    begins with [0x] (the [x] in either case), hence not with an
    underscore. *)
Theorem parseDeepLink_key_shape (loc : DeepLink.location) (k : string) :
  DeepLink.parseDeepLink loc = Some k ->
  JsString.test0x k = true /\ JsString.startsWith "_" k = false.
Proof.
  intro H.
  assert (X : JsString.test0x k = true).
  { unfold DeepLink.parseDeepLink in H.
    destruct (DeepLink.parseHashFragment loc) as [t |] eqn:F.
    - rewrite (parseHashFragment_nonEmpty loc t F) in H. injection H as H. subst t.
      apply matchHashFragment_token, isHashToken_test0x in F. exact F.
    - simpl in H. rewrite firstHashName_find in H.
      destruct (List.find _ (DeepLink.searchParams loc)) as [p |] eqn:E; simpl in H.
      + injection H as H. subst k. apply find_some in E. apply testHashName_strip, E.
      + destruct (DeepLink.get "hash" (DeepLink.searchParams loc)) as [h |]; [| discriminate H].
        destruct (JsString.test0x h) eqn:T; [| rewrite andb_false_r in H; discriminate H].
        destruct (negb (JsString.isEmpty h)); [| discriminate H].
        injection H as H. subst k. exact T. }
  split; [exact X | apply test0x_no_underscore, X].
Qed.

(** ** Deep links: encoding *)

Lemma filter_all {A : Type} (l : list A) : List.filter (fun _ => true) l = l.
Proof. induction l as [|a l IH]; simpl; [reflexivity | rewrite IH; reflexivity]. Qed.

Lemma filter_twice {A : Type} (f g : A -> bool) (l : list A) :
  List.filter f (List.filter g l) = List.filter (fun a => g a && f a) l.
Proof.
  induction l as [|a l IH]; simpl; [reflexivity |].
  destruct (g a); simpl; [destruct (f a) |]; rewrite IH; reflexivity.
Qed.

Lemma clear_loop (ks : list string) (ps : list (string * string)) :
  List.fold_left DeepLink.clearStep ks ps
  = List.filter
      (fun p => negb (existsb (fun k => DeepLink.cleared k && String.eqb (fst p) k) ks)) ps.
Proof.
  revert ps; induction ks as [|k ks IH]; intro ps; simpl.
  - symmetry. apply filter_all.
  - rewrite IH. unfold DeepLink.clearStep, DeepLink.delete.
    destruct (DeepLink.cleared k); simpl.
    + rewrite filter_twice. apply List.filter_ext. intro p.
      destruct (String.eqb (fst p) k); reflexivity.
    + reflexivity.
Qed.

Lemma clear_all (ps : list (string * string)) :
  List.fold_left DeepLink.clearStep (DeepLink.keys ps) ps
  = List.filter (fun p => negb (DeepLink.cleared (fst p))) ps.
Proof.
  rewrite clear_loop. apply List.filter_ext_in. intros p Hp. f_equal.
  destruct (DeepLink.cleared (fst p)) eqn:C.
  - apply existsb_exists. exists (fst p). split.
    + unfold DeepLink.keys. apply in_map. exact Hp.
    + rewrite C, String.eqb_refl. reflexivity.
  - destruct (existsb _ (DeepLink.keys ps)) eqn:E; [| reflexivity].
    apply existsb_exists in E. destruct E as [k [_ E]].
    apply andb_true_iff in E. destruct E as [Ck E].
    apply String.eqb_eq in E. rewrite E, Ck in C. discriminate C.
Qed.

Lemma set_fresh (name v : string) (ps : list (string * string)) :
  (forall p, In p ps -> fst p <> name) ->
  DeepLink.set name v ps = ps ++ [(name, v)].
Proof.
  induction ps as [|[k w] ps IH]; intro F; simpl.
  - reflexivity.
  - destruct (String.eqb_spec k name) as [E | E].
    + exfalso. apply (F (k, w)); [left; reflexivity | exact E].
    + rewrite IH; [reflexivity |]. intros p Hp. apply F. right. exact Hp.
Qed.

Lemma firstHashName_last (ps : list (string * string)) (k v : string) :
  (forall p, In p ps -> JsString.testHashName (fst p) = false) ->
  JsString.testHashName k = true ->
  DeepLink.firstHashName (ps ++ [(k, v)]) = Some (JsString.stripUnderscore k).
Proof.
  induction ps as [|[k' w] ps IH]; intros F T; simpl.
  - rewrite T. reflexivity.
  - pose proof (F (k', w) (or_introl eq_refl)) as N. simpl in N. rewrite N.
    apply IH; [| exact T]. intros p Hp. apply F. right. exact Hp.
Qed.

Lemma setDeepLink_params (key : string) (loc : DeepLink.location) :
  JsString.test0x key = true ->
  DeepLink.searchParams (DeepLink.setDeepLink key loc)
  = List.filter (fun p => negb (DeepLink.cleared (fst p))) (DeepLink.searchParams loc)
    ++ [(String "_" key, "")].
Proof.
  intro T. unfold DeepLink.setDeepLink. simpl. rewrite clear_all.
  apply set_fresh. intros p Hp E.
  apply filter_In in Hp. destruct Hp as [_ C].
  unfold DeepLink.cleared in C. rewrite E in C. simpl in C. rewrite T in C. discriminate C.
Qed.

(** C4, as it stands, fails: when the address has a hash-style
    fragment, the fragment is kept by the encoder and wins on decoding;
    and a parameter named [0xzz], which is neither hash-style nor
    [hash], is removed by the encoder. *)
Lemma deepLink_roundtrip_counterexample :
  DeepLink.parseDeepLink
    (DeepLink.setDeepLink "0xABCD1234" (DeepLink.mkLocation "#_0x1111" [("foo", "bar")]))
  = Some "0x1111"
  /\ (Spec.unrelated ("0xzz", "1") = true
      /\ DeepLink.searchParams
           (DeepLink.setDeepLink "0xABCD1234"
              (DeepLink.mkLocation "" [("0xzz", "1"); ("foo", "bar")]))
         = [("foo", "bar"); ("_0xABCD1234", "")]).
Proof. repeat split. Qed.

(** C4, amended. For every address whose fragment is not of the
    hash-style form and every key that begins with [0x] (in either
    case), such as [0xABCD1234], decoding the encoded address yields
    the key as it was given; the encoded address has the same fragment,
    and its query parameters are those of the address whose name
    neither begins with an optional underscore and [0x] nor is [hash],
    unchanged and in their order, followed by the parameter named [_]
    plus the key with an empty value. *)
Theorem deepLink_roundtrip (loc : DeepLink.location) (key : string) :
  JsString.test0x key = true ->
  DeepLink.parseHashFragment loc = None ->
  DeepLink.parseDeepLink (DeepLink.setDeepLink key loc) = Some key
  /\ DeepLink.hash (DeepLink.setDeepLink key loc) = DeepLink.hash loc
  /\ DeepLink.searchParams (DeepLink.setDeepLink key loc)
     = List.filter
         (fun p => negb (JsString.testHashName (fst p) || String.eqb (fst p) "hash"))
         (DeepLink.searchParams loc)
       ++ [(String "_" key, "")].
Proof.
  intros T F. split; [| split; [reflexivity | exact (setDeepLink_params key loc T)]].
  unfold DeepLink.parseDeepLink.
  replace (DeepLink.parseHashFragment (DeepLink.setDeepLink key loc))
    with (DeepLink.parseHashFragment loc) by reflexivity.
  rewrite F. simpl DeepLink.nonEmpty. cbv iota.
  rewrite (setDeepLink_params key loc T).
  rewrite firstHashName_last.
  - reflexivity.
  - intros p Hp. apply filter_In in Hp. destruct Hp as [_ C].
    unfold DeepLink.cleared in C. destruct (JsString.testHashName (fst p)); [discriminate C | reflexivity].
  - exact T.
Qed.

(** ** The namespace list *)

Lemma setAdd_In (s : list string) (x y : string) :
  In y (Query.setAdd s x) <-> In y s \/ y = x.
Proof.
  unfold Query.setAdd. destruct (existsb (String.eqb x) s) eqn:E.
  - split; [auto |]. intros [H | H]; [exact H |]. subst y.
    apply existsb_exists in E. destruct E as [z [Hz E]].
    apply String.eqb_eq in E. subst z. exact Hz.
  - rewrite in_app_iff. simpl. intuition.
Qed.

Lemma setAdd_NoDup (s : list string) (x : string) :
  NoDup s -> NoDup (Query.setAdd s x).
Proof.
  intro N. unfold Query.setAdd. destruct (existsb (String.eqb x) s) eqn:E; [exact N |].
  apply NoDup_app; [exact N | repeat constructor; intros [] |].
  intros y Hy [Hx | []]. subst y.
  assert (existsb (String.eqb x) s = true) as T.
  { apply existsb_exists. exists x. split; [exact Hy | apply String.eqb_refl]. }
  rewrite T in E. discriminate E.
Qed.

Lemma unique_loop (arr acc : list string) :
  NoDup acc ->
  NoDup (List.fold_left Query.setAdd arr acc)
  /\ forall y, In y (List.fold_left Query.setAdd arr acc) <-> In y acc \/ In y arr.
Proof.
  revert acc; induction arr as [|x arr IH]; intros acc N; simpl.
  - split; [exact N | intro y; tauto].
  - destruct (IH (Query.setAdd acc x) (setAdd_NoDup acc x N)) as [N' I].
    split; [exact N' |]. intro y. rewrite I, setAdd_In. intuition.
Qed.

Lemma unique_spec (arr : list string) :
  NoDup (Query.unique arr) /\ forall y, In y (Query.unique arr) <-> In y arr.
Proof.
  destruct (unique_loop arr [] (NoDup_nil _)) as [N I].
  split; [exact N |]. intro y. unfold Query.unique. rewrite I. simpl. tauto.
Qed.

Section Sorting.

Variable comparefn : string -> string -> Z.
Hypothesis comparefn_consistent : Spec.consistent comparefn.

Let le (a b : string) : Prop := (comparefn a b <= 0)%Z.

Lemma insert_perm (x : string) (l : list string) :
  Permutation (Query.insert comparefn x l) (x :: l).
Proof.
  induction l as [|y l IH]; simpl.
  - apply Permutation_refl.
  - destruct (comparefn x y <? 0)%Z.
    + apply Permutation_refl.
    + apply Permutation_trans with (y :: x :: l).
      * apply perm_skip. exact IH.
      * apply perm_swap.
Qed.

Lemma insert_sorted (x : string) (l : list string) :
  StronglySorted le l -> StronglySorted le (Query.insert comparefn x l).
Proof.
  destruct comparefn_consistent as [Hsgn Htrans].
  induction 1 as [| y l S IH F]; simpl.
  - constructor; constructor.
  - destruct (comparefn x y <? 0)%Z eqn:C.
    + apply Z.ltb_lt in C.
      assert (Lxy : le x y) by (unfold le; lia).
      constructor; [constructor; assumption |].
      constructor; [exact Lxy |].
      apply Forall_forall. intros z Hz.
      rewrite Forall_forall in F. exact (Htrans x y z Lxy (F z Hz)).
    + apply Z.ltb_ge in C.
      assert (Lyx : le y x).
      { unfold le. pose proof (Hsgn x y) as A.
        destruct (Z.sgn_spec (comparefn x y)) as [[? E] | [[? E] | [? E]]];
          destruct (Z.sgn_spec (comparefn y x)) as [[? E'] | [[? E'] | [? E']]]; lia. }
      constructor; [exact IH |].
      apply Forall_forall. intros z Hz.
      apply (Permutation_in _ (insert_perm x l)) in Hz.
      destruct Hz as [Hz | Hz]; [subst z; exact Lyx |].
      rewrite Forall_forall in F. exact (F z Hz).
Qed.

Lemma sort_loop (arr acc : list string) :
  StronglySorted le acc ->
  StronglySorted le (List.fold_left (fun a x => Query.insert comparefn x a) arr acc)
  /\ Permutation (List.fold_left (fun a x => Query.insert comparefn x a) arr acc) (acc ++ arr).
Proof.
  revert acc; induction arr as [|x arr IH]; intros acc S; simpl.
  - split; [exact S | rewrite app_nil_r; apply Permutation_refl].
  - destruct (IH _ (insert_sorted x acc S)) as [S' P]. split; [exact S' |].
    apply Permutation_trans with (1 := P).
    apply Permutation_trans with ((x :: acc) ++ arr).
    + apply Permutation_app_tail, insert_perm.
    + simpl. apply Permutation_middle.
Qed.

Lemma sort_spec (arr : list string) :
  StronglySorted le (Query.sort comparefn arr)
  /\ Permutation (Query.sort comparefn arr) arr.
Proof. exact (sort_loop arr [] (SSorted_nil _)). Qed.

End Sorting.

Lemma strings_map (vs : list Js.value) (l : list string) :
  Query.strings vs = Some l -> vs = List.map Js.VStr l.
Proof.
  revert l; induction vs as [|v vs IH]; intros l H; simpl in H.
  - injection H as H. subst l. reflexivity.
  - destruct v; try discriminate H.
    destruct (Query.strings vs) as [l' |]; [| discriminate H].
    injection H as H. subst l. simpl. rewrite (IH l' eq_refl). reflexivity.
Qed.

Lemma strings_total (vs : list Js.value) :
  (forall v, In v vs -> exists s, v = Js.VStr s) ->
  exists l, Query.strings vs = Some l.
Proof.
  induction vs as [|v vs IH]; intro H; simpl.
  - exists []. reflexivity.
  - destruct (H v (or_introl eq_refl)) as [s E]. subst v.
    destruct IH as [l E]; [intros v Hv; apply H; right; exact Hv |].
    rewrite E. exists (s :: l). reflexivity.
Qed.

Lemma truthy_string (s : string) : Js.truthy (Js.VStr s) = true <-> s <> "".
Proof.
  destruct s; simpl; split; intro H.
  - discriminate H.
  - contradiction H. reflexivity.
  - discriminate.
  - reflexivity.
Qed.

Lemma setAddValue_strings (s : list string) (x : string) :
  Query.setAddValue (List.map Js.VStr s) (Js.VStr x) = List.map Js.VStr (Query.setAdd s x).
Proof.
  unfold Query.setAddValue, Query.setAdd.
  assert (E : existsb (Query.sameValueZero (Js.VStr x)) (List.map Js.VStr s)
              = existsb (String.eqb x) s).
  { induction s as [|y s IH]; simpl; [reflexivity | rewrite IH; reflexivity]. }
  rewrite E. destruct (existsb (String.eqb x) s); [reflexivity |].
  rewrite map_app. reflexivity.
Qed.

Lemma uniqueValues_strings (l : list string) :
  Query.uniqueValues (List.map Js.VStr l) = List.map Js.VStr (Query.unique l).
Proof.
  unfold Query.uniqueValues, Query.unique.
  change (@nil Js.value) with (List.map Js.VStr []).
  generalize (@nil string). induction l as [|x l IH]; intro acc; simpl; [reflexivity |].
  rewrite setAddValue_strings. apply IH.
Qed.

Lemma insertValue_strings (localeCompare : string -> string -> Z) (x : string)
    (l : list string) :
  Query.insertValue localeCompare (Js.VStr x) (List.map Js.VStr l)
  = Js.OK (List.map Js.VStr (Query.insert localeCompare x l)).
Proof.
  induction l as [|y l IH]; simpl; [reflexivity |].
  destruct (localeCompare x y <? 0)%Z; [reflexivity |].
  rewrite IH. reflexivity.
Qed.

Lemma sortValues_strings (localeCompare : string -> string -> Z) (l : list string) :
  Query.sortValues localeCompare (List.map Js.VStr l)
  = Js.OK (List.map Js.VStr (Query.sort localeCompare l)).
Proof.
  unfold Query.sortValues, Query.sort.
  change (Js.OK (@nil Js.value)) with (Js.OK (List.map Js.VStr [])).
  generalize (@nil string). induction l as [|x l IH]; intro acc; simpl; [reflexivity |].
  rewrite insertValue_strings. apply IH.
Qed.

(** On a collection whose non-empty namespaces are strings the two
    forms of the namespace list agree. *)
Lemma namespaceValues_strings (localeCompare : string -> string -> Z)
    (items : list Normalizer.entry) (names : list string) :
  Query.namespaces localeCompare items = Some names ->
  Query.namespaceValues localeCompare items = Js.OK (List.map Js.VStr names).
Proof.
  unfold Query.namespaces, Query.namespaceValues.
  destruct (Query.strings _) as [l |] eqn:E; [| discriminate].
  simpl. intro H. injection H as H. subst names.
  rewrite (strings_map _ _ E), uniqueValues_strings. apply sortValues_strings.
Qed.

(** C6, as it stands, fails: the dataset below flattens to a collection
    of two entries whose namespaces are the numbers 5 and 6; computing
    the namespace list of that collection throws, since a number has no
    [localeCompare], instead of returning the sorted list of the
    namespace values. *)
Lemma namespaces_counterexample :
  exists e1 e2,
    Normalizer.flatten
      (Js.VObj [("CFX", Js.VObj [("0x1", Js.VObj [("ns", Js.VNum 5)]);
                                 ("0x2", Js.VObj [("ns", Js.VNum 6)])])])
    = Js.OK [e1; e2]
    /\ Normalizer.ns e1 = Js.VNum 5 /\ Normalizer.ns e2 = Js.VNum 6
    /\ Query.namespaceValues Query.compareCodes [e1; e2] = Js.TypeError
    /\ Query.namespaces Query.compareCodes [e1; e2] = None.
Proof. eexists. eexists. repeat split. Qed.

(** C6, amended. With a consistent [localeCompare], on a collection whose
    non-empty namespaces are strings, the namespace list is computed,
    has no duplicates, is sorted by [localeCompare], and consists of
    exactly the non-empty namespace values of the whole collection,
    however often they are repeated there. *)
Theorem namespaces_sorted_distinct
    (localeCompare : string -> string -> Z) (items : list Normalizer.entry) :
  Spec.consistent localeCompare ->
  (forall n, In n items -> Js.truthy (Normalizer.ns n) = true ->
     exists s, Normalizer.ns n = Js.VStr s) ->
  exists names,
    Query.namespaces localeCompare items = Some names
    /\ NoDup names
    /\ StronglySorted (fun a b => (localeCompare a b <= 0)%Z) names
    /\ forall s, In s names <->
         (s <> "" /\ exists n, In n items /\ Normalizer.ns n = Js.VStr s).
Proof.
  intros C T. unfold Query.namespaces.
  destruct (strings_total (List.filter Js.truthy (List.map Normalizer.ns items))) as [l E].
  { intros v Hv. apply filter_In in Hv. destruct Hv as [Hv Tv].
    apply in_map_iff in Hv. destruct Hv as [n [En Hn]]. subst v. exact (T n Hn Tv). }
  rewrite E. simpl. exists (Query.sort localeCompare (Query.unique l)).
  destruct (sort_spec localeCompare C (Query.unique l)) as [S P].
  destruct (unique_spec l) as [N I].
  split; [reflexivity | split; [| split; [exact S |]]].
  - apply (Permutation_NoDup (Permutation_sym P) N).
  - intro s.
    assert (In s (Query.sort localeCompare (Query.unique l)) <-> In s l) as M.
    { rewrite <- I. split; apply Permutation_in; [exact P | apply Permutation_sym, P]. }
    rewrite M. clear M. apply strings_map in E.
    assert (In s l <-> In (Js.VStr s) (List.map Js.VStr l)) as M.
    { split; [apply in_map |]. intro H. apply in_map_iff in H.
      destruct H as [s' [Es Hs]]. injection Es as Es. subst s'. exact Hs. }
    rewrite M, <- E, filter_In, in_map_iff, truthy_string. clear M.
    split.
    + intros [[n [En Hn]] Hs]. split; [exact Hs | exists n; split; assumption].
    + intros [Hs [n [Hn En]]]. split; [exists n; split; assumption | exact Hs].
Qed.

Lemma compareCodes_consistent : Spec.consistent Query.compareCodes.
Proof.
  split.
  - intros a b. unfold Query.compareCodes.
    pose proof (String_as_OT.cmp_antisym a b) as A. unfold String_as_OT.cmp in A.
    rewrite A. destruct (String.compare b a); reflexivity.
  - assert (He : forall x y, String.compare x y = Eq <-> x = y)
      by exact String_as_OT.cmp_eq.
    assert (Hl : forall x y, String.compare x y = Lt <-> String_as_OT.lt x y)
      by exact String_as_OT.cmp_lt.
    intros a b c. unfold Query.compareCodes.
    destruct (String.compare a b) eqn:Eab; try (intro; lia); intros _;
      destruct (String.compare b c) eqn:Ebc; try (intro; lia); intros _.
    + apply He in Eab, Ebc. subst. rewrite (proj2 (He c c) eq_refl). lia.
    + apply He in Eab. subst. rewrite Ebc. lia.
    + apply He in Ebc. subst. rewrite Eab. lia.
    + apply Hl in Eab, Ebc.
      rewrite (proj2 (Hl a c) (String_as_OT.lt_trans _ _ _ Eab Ebc)). lia.
Qed.

(** ** The statements at concrete inputs *)

Lemma filtered_is_selection_witness :
  JsString.trim "  " = ""
  /\ Spec.substring "" (Normalizer.searchText (Spec.defaults "CFX" "0x1" [])).
Proof.
  split; [reflexivity |].
  exact (proj2 (proj2 (filtered_is_selection (Query.mkControls "  " "all" "raw" "all") []))
           eq_refl (Spec.defaults "CFX" "0x1" [])).
Defined.

Lemma rawToPascal_displayName_witness :
  JsString.testHashName "_set_player_ped" = false
  /\ Normalizer.rawToPascal (Js.VStr "_set_player_ped") = Js.OK (Js.VStr "SetPlayerPed").
Proof.
  split; [reflexivity |].
  exact (proj1 (rawToPascal_displayName "_set_player_ped") eq_refl).
Defined.

Lemma parseDeepLink_precedence_witness :
  DeepLink.parseDeepLink (DeepLink.mkLocation " #_0xAbCd " [("_0x12", ""); ("hash", "0x34")])
    = Some "0xAbCd"
  /\ DeepLink.parseDeepLink (DeepLink.mkLocation "#top" [("foo", "bar"); ("_0x12", ""); ("hash", "0x34")])
    = Some "0x12"
  /\ DeepLink.parseDeepLink (DeepLink.mkLocation "" [("foo", "bar"); ("hash", "0X34")])
    = Some "0X34"
  /\ DeepLink.parseDeepLink (DeepLink.mkLocation "" [("foo", "bar")]) = None.
Proof.
  split; [| split; [| split]].
  - apply (proj1 (parseDeepLink_precedence
                    (DeepLink.mkLocation " #_0xAbCd " [("_0x12", ""); ("hash", "0x34")]))
             "0xAbCd" eq_refl).
    right. reflexivity.
  - exact (proj1 (proj2 (parseDeepLink_precedence
                    (DeepLink.mkLocation "#top" [("foo", "bar"); ("_0x12", ""); ("hash", "0x34")]))
                    eq_refl) ("_0x12", "") eq_refl).
  - exact (proj1 (proj2 (proj2 (parseDeepLink_precedence
                    (DeepLink.mkLocation "" [("foo", "bar"); ("hash", "0X34")]))
                    eq_refl) eq_refl) ("hash", "0X34") eq_refl).
  - exact (proj2 (proj2 (proj2 (parseDeepLink_precedence
                    (DeepLink.mkLocation "" [("foo", "bar")]))
                    eq_refl) eq_refl) eq_refl).
Defined.

Lemma deepLink_roundtrip_witness :
  JsString.test0x "0xABCD1234" = true
  /\ DeepLink.parseHashFragment
       (DeepLink.mkLocation "#top" [("_0xABCD", ""); ("foo", "bar"); ("hash", "0x1")]) = None
  /\ DeepLink.parseDeepLink
       (DeepLink.setDeepLink "0xABCD1234"
          (DeepLink.mkLocation "#top" [("_0xABCD", ""); ("foo", "bar"); ("hash", "0x1")]))
     = Some "0xABCD1234"
  /\ DeepLink.searchParams
       (DeepLink.setDeepLink "0xABCD1234"
          (DeepLink.mkLocation "#top" [("_0xABCD", ""); ("foo", "bar"); ("hash", "0x1")]))
     = [("foo", "bar"); ("_0xABCD1234", "")].
Proof.
  split; [reflexivity | split; [reflexivity |]].
  pose proof (deepLink_roundtrip
                (DeepLink.mkLocation "#top" [("_0xABCD", ""); ("foo", "bar"); ("hash", "0x1")])
                "0xABCD1234" eq_refl eq_refl) as R.
  split; [exact (proj1 R) | exact (proj2 (proj2 R))].
Defined.

Lemma normalizeApiSet_default_witness :
  Normalizer.normalizeApiSet (Js.VObj [("name", Js.VStr "FOO"); ("apiset", Js.VStr "Server")])
    = Js.OK "server"
  /\ Normalizer.normalizeApiSet (Js.VObj [("name", Js.VStr "FOO")]) = Js.OK "client"
  /\ Normalizer.normalizeApiSet (Js.VObj [("apiset", Js.VNull)]) = Js.OK "client"
  /\ Normalizer.normalizeApiSet (Js.VObj [("apiset", Js.VBool true)]) = Js.TypeError
  /\ Normalizer.normalizeApiSet Js.VNull = Js.TypeError.
Proof.
  split; [| split; [| split; [| split]]].
  - apply (proj1 (normalizeApiSet_default
                    (Js.VObj [("name", Js.VStr "FOO"); ("apiset", Js.VStr "Server")]) Js.VNull)
             "Server" eq_refl).
    discriminate.
  - exact (proj1 (proj2 (normalizeApiSet_default (Js.VObj [("name", Js.VStr "FOO")]) Js.VNull))
             eq_refl eq_refl).
  - exact (proj1 (proj2 (normalizeApiSet_default (Js.VObj [("apiset", Js.VNull)]) Js.VNull))
             eq_refl eq_refl).
  - apply (proj1 (proj2 (proj2 (normalizeApiSet_default
                                  (Js.VObj [("apiset", Js.VBool true)]) Js.VNull)))).
    + reflexivity.
    + intros s E. discriminate E.
  - exact (proj1 (proj2 (proj2 (proj2 (normalizeApiSet_default Js.VNull Js.VNull)))) eq_refl).
Defined.

Lemma namespaces_sorted_distinct_witness :
  exists names,
    Query.namespaces Query.compareCodes
      [Spec.defaults "PLAYER" "0x1" []; Spec.defaults "" "0x2" [];
       Spec.defaults "CFX" "0x3" []; Spec.defaults "PLAYER" "0x4" []] = Some names
    /\ NoDup names
    /\ StronglySorted (fun a b => (Query.compareCodes a b <= 0)%Z) names
    /\ forall s, In s names <->
         (s <> ""
          /\ exists n,
               In n [Spec.defaults "PLAYER" "0x1" []; Spec.defaults "" "0x2" [];
                     Spec.defaults "CFX" "0x3" []; Spec.defaults "PLAYER" "0x4" []]
               /\ Normalizer.ns n = Js.VStr s).
Proof.
  apply (namespaces_sorted_distinct Query.compareCodes).
  - exact compareCodes_consistent.
  - intros n Hn _. simpl in Hn.
    destruct Hn as [E | [E | [E | [E | []]]]]; subst n; eexists; reflexivity.
Defined.

Lemma filtered_case_insensitive_witness :
  Spec.caseVariant "PED" "ped"
  /\ Query.filtered (Query.mkControls "PED" "all" "lua" "all")
       [Spec.defaults "PED" "0x1" []; Spec.defaults "CFX" "0x2" []]
     = Query.filtered (Query.mkControls "ped" "all" "raw" "all")
       [Spec.defaults "PED" "0x1" []; Spec.defaults "CFX" "0x2" []].
Proof.
  assert (V : Spec.caseVariant "PED" "ped").
  { repeat (apply Spec.caseVariant_char; [right; right; reflexivity |]).
    apply Spec.caseVariant_empty. }
  split; [exact V |].
  exact (filtered_case_insensitive
           (Query.mkControls "PED" "all" "lua" "all") (Query.mkControls "ped" "all" "raw" "all")
           [Spec.defaults "PED" "0x1" []; Spec.defaults "CFX" "0x2" []] V eq_refl eq_refl).
Defined.

Lemma flatten_defaulting_witness :
  Spec.notObject (Js.VNum 7) = true
  /\ Normalizer.normalize "CFX" "0x1" (Js.VNum 7) = Js.OK (Spec.defaults "CFX" "0x1" [])
  /\ Spec.emptyScalar (Js.VNum 7) = true
  /\ Normalizer.flatten (Js.VNum 7) = Js.OK [].
Proof.
  pose proof (flatten_defaulting "CFX" "0x1" (Js.VNum 7) (Js.VNum 7)) as D.
  split; [reflexivity | split; [| split; [reflexivity |]]].
  - exact (proj1 (proj1 (proj2 D) eq_refl)).
  - exact (proj2 (proj2 D) eq_refl).
Defined.

Lemma rawToPascal_hashStyle_identity_witness :
  Spec.hashStyle "_0xAbC1" = true
  /\ Normalizer.rawToPascal (Js.VStr "_0xAbC1") = Js.OK (Js.VStr "_0xAbC1").
Proof.
  split; [reflexivity |].
  exact (rawToPascal_hashStyle_identity "_0xAbC1" eq_refl).
Defined.

Lemma parseDeepLink_key_shape_witness :
  DeepLink.parseDeepLink (DeepLink.mkLocation "" [("foo", "bar"); ("_0Xab", "")]) = Some "0Xab"
  /\ JsString.test0x "0Xab" = true /\ JsString.startsWith "_" "0Xab" = false.
Proof.
  split; [reflexivity |].
  exact (parseDeepLink_key_shape
           (DeepLink.mkLocation "" [("foo", "bar"); ("_0Xab", "")]) "0Xab" eq_refl).
Defined.

(** * Further properties of the script *)

(** ** Markup escaping *)

Lemma append_assoc_s (a b c : string) : ((a ++ b) ++ c = a ++ (b ++ c))%string.
Proof. induction a as [|x a IH]; simpl; [reflexivity | rewrite IH; reflexivity]. Qed.

Lemma append_length_s (a b : string) :
  String.length (a ++ b)%string = String.length a + String.length b.
Proof. induction a as [|x a IH]; simpl; [reflexivity | rewrite IH; reflexivity]. Qed.

Lemma forallb_append (p : ascii -> bool) (a b : string) :
  JsString.forallb p (a ++ b)%string = JsString.forallb p a && JsString.forallb p b.
Proof.
  induction a as [|x a IH]; simpl; [reflexivity |].
  rewrite IH. apply andb_assoc.
Qed.

Lemma replaceAll_append (c : ascii) (rep a b : string) :
  Html.replaceAll c rep (a ++ b)%string
  = (Html.replaceAll c rep a ++ Html.replaceAll c rep b)%string.
Proof.
  induction a as [|x a IH]; simpl; [reflexivity |].
  rewrite IH. destruct (Ascii.eqb x c); [rewrite append_assoc_s |]; reflexivity.
Qed.

Lemma escape_char (a : ascii) :
  Html.escape (String a "")
  = if Ascii.eqb a "&" then "&amp;"
    else if Ascii.eqb a "<" then "&lt;"
    else if Ascii.eqb a ">" then "&gt;"
    else if Ascii.eqb a "034" then "&quot;"
    else if Ascii.eqb a "'" then "&#39;"
    else String a "".
Proof. destruct a as [[] [] [] [] [] [] [] []]; reflexivity. Qed.

Lemma escape_append (a b : string) :
  Html.escape (a ++ b)%string = (Html.escape a ++ Html.escape b)%string.
Proof. unfold Html.escape. rewrite !replaceAll_append. reflexivity. Qed.

Lemma escape_cons (a : ascii) (r : string) :
  Html.escape (String a r) = (Html.escape (String a "") ++ Html.escape r)%string.
Proof. exact (escape_append (String a "") r). Qed.

Lemma escape_char_no_markup (a : ascii) :
  JsString.forallb (fun c => negb (Html.isMarkup c)) (Html.escape (String a "")) = true.
Proof. destruct a as [[] [] [] [] [] [] [] []]; reflexivity. Qed.

Lemma escape_no_markup (s : string) :
  JsString.forallb (fun c => negb (Html.isMarkup c)) (Html.escape s) = true.
Proof.
  induction s as [|a r IH]; [reflexivity |].
  rewrite escape_cons, forallb_append, escape_char_no_markup, IH. reflexivity.
Qed.

(** X1. Whatever [escapeHtml] returns contains none of the characters
    [<], [>], double quote and single quote. *)
Theorem escapeHtml_no_markup (v : Js.value) (out : string) :
  Html.escapeHtml v = Js.OK out ->
  JsString.forallb (fun c => negb (Html.isMarkup c)) out = true.
Proof.
  destruct v; simpl; intro H; try discriminate H;
    injection H as H; subst out; apply escape_no_markup.
Qed.

Lemma escapeHtml_no_markup_witness :
  Html.escapeHtml (Js.VStr "<b class='x'>&</b>") = Js.OK "&lt;b class=&#39;x&#39;&gt;&amp;&lt;/b&gt;"
  /\ JsString.forallb (fun c => negb (Html.isMarkup c))
       "&lt;b class=&#39;x&#39;&gt;&amp;&lt;/b&gt;" = true.
Proof.
  split; [reflexivity |].
  exact (escapeHtml_no_markup (Js.VStr "<b class='x'>&</b>") _ eq_refl).
Defined.

Lemma escape_length (s : string) : String.length s <= String.length (Html.escape s).
Proof.
  induction s as [|a r IH]; [apply Nat.le_refl |].
  rewrite escape_cons, append_length_s, escape_char.
  repeat match goal with |- context [if ?b then _ else _] => destruct b end;
    simpl; lia.
Qed.

Lemma escape_plain_cons (a : ascii) (r : string) :
  Html.isSpecial a = false -> Html.escape (String a r) = String a (Html.escape r).
Proof.
  intro P. rewrite escape_cons, escape_char.
  unfold Html.isSpecial, Html.isMarkup in P.
  repeat match goal with
         | H : (_ || _) = false |- _ => apply orb_false_iff in H; destruct H
         end.
  repeat match goal with E : Ascii.eqb _ _ = false |- _ => rewrite E; clear E end.
  reflexivity.
Qed.

Lemma escape_special_cons (a : ascii) (r : string) :
  Html.isSpecial a = true ->
  exists tail, Html.escape (String a r) = String "&" (tail ++ Html.escape r)%string
               /\ 3 <= String.length tail.
Proof.
  intro P. rewrite escape_cons, escape_char.
  unfold Html.isSpecial, Html.isMarkup in P.
  destruct (Ascii.eqb a "&"); [exists "amp;"; split; [reflexivity | simpl; lia] |].
  destruct (Ascii.eqb a "<"); [exists "lt;"; split; [reflexivity | simpl; lia] |].
  destruct (Ascii.eqb a ">"); [exists "gt;"; split; [reflexivity | simpl; lia] |].
  destruct (Ascii.eqb a "034"); [exists "quot;"; split; [reflexivity | simpl; lia] |].
  destruct (Ascii.eqb a "'"); [exists "#39;"; split; [reflexivity | simpl; lia] |].
  discriminate P.
Qed.

(** X2. [escapeHtml] returns a string as it is exactly when the string
    has none of the five characters [&], [<], [>], double quote and
    single quote. *)
Theorem escapeHtml_identity_iff (s : string) :
  Html.escapeHtml (Js.VStr s) = Js.OK s
  <-> JsString.forallb (fun c => negb (Html.isSpecial c)) s = true.
Proof.
  simpl. split.
  - intro H. injection H as H. induction s as [|a r IH]; [reflexivity |].
    simpl. destruct (Html.isSpecial a) eqn:P; simpl.
    + exfalso. destruct (escape_special_cons a r P) as [tail [E L]].
      rewrite E in H. injection H as Ha Hr.
      pose proof (escape_length r) as Lr.
      assert (String.length (tail ++ Html.escape r)%string = String.length r) as X
        by (rewrite Hr; reflexivity).
      rewrite append_length_s in X. lia.
    + rewrite (escape_plain_cons a r P) in H. injection H as H. exact (IH H).
  - intro H. f_equal. induction s as [|a r IH]; [reflexivity |].
    simpl in H. apply andb_true_iff in H. destruct H as [P H].
    apply negb_true_iff in P. rewrite (escape_plain_cons a r P), (IH H). reflexivity.
Qed.

(** X3. Escaping two pieces of text and joining the results gives the
    same as escaping the joined text. *)
Theorem escapeHtml_append (a b a' b' : string) :
  Html.escapeHtml (Js.VStr a) = Js.OK a' ->
  Html.escapeHtml (Js.VStr b) = Js.OK b' ->
  Html.escapeHtml (Js.VStr (a ++ b)%string) = Js.OK (a' ++ b')%string.
Proof.
  simpl. intros Ha Hb. injection Ha as Ha. injection Hb as Hb. subst a' b'.
  rewrite escape_append. reflexivity.
Qed.

Lemma escapeHtml_append_witness :
  Html.escapeHtml (Js.VStr "a<") = Js.OK "a&lt;"
  /\ Html.escapeHtml (Js.VStr "&b") = Js.OK "&amp;b"
  /\ Html.escapeHtml (Js.VStr "a<&b") = Js.OK "a&lt;&amp;b".
Proof.
  split; [reflexivity | split; [reflexivity |]].
  exact (escapeHtml_append "a<" "&b" _ _ eq_refl eq_refl).
Defined.

Ltac classify a :=
  destruct (Ascii.eqb_spec a "&") as [-> | ?];
  [| destruct (Ascii.eqb_spec a "<") as [-> | ?];
     [| destruct (Ascii.eqb_spec a ">") as [-> | ?];
        [| destruct (Ascii.eqb_spec a "034") as [-> | ?];
           [| destruct (Ascii.eqb_spec a "'") as [-> | ?]]]]].

Lemma escape_injective (s t : string) : Html.escape s = Html.escape t -> s = t.
Proof.
  revert t; induction s as [|a r IH]; intros [|b r'].
  - reflexivity.
  - rewrite escape_cons, escape_char. classify b; simpl; discriminate.
  - rewrite escape_cons, escape_char. classify a; simpl; discriminate.
  - rewrite (escape_cons a), (escape_cons b), !escape_char.
    classify a; classify b; simpl; intro H; try congruence;
      (assert (E : Html.escape r = Html.escape r') by congruence);
      rewrite (IH _ E); congruence.
Qed.

(** X4. [escapeHtml] loses nothing: two strings with the same escaped
    form are the same string. *)
Theorem escapeHtml_injective (s t : string) :
  Html.escapeHtml (Js.VStr s) = Html.escapeHtml (Js.VStr t) -> s = t.
Proof. simpl. intro H. injection H as H. exact (escape_injective s t H). Qed.

Lemma escapeHtml_injective_witness :
  Html.escapeHtml (Js.VStr "a&b") = Html.escapeHtml (Js.VStr "a&b") /\ "a&b" = "a&b".
Proof.
  split; [reflexivity |].
  exact (escapeHtml_injective "a&b" "a&b" eq_refl).
Defined.

(** ** Example maps *)

Lemma toLowerCase_idem (s : string) :
  JsString.toLowerCase (JsString.toLowerCase s) = JsString.toLowerCase s.
Proof.
  unfold JsString.toLowerCase. induction s as [|a r IH]; simpl; [reflexivity |].
  rewrite lowerChar_idem, IH. reflexivity.
Qed.

Lemma mapSet_keys (k : string) (v : Js.value) (m : list (string * Js.value)) :
  List.map fst (Js.mapSet k v m)
  = if existsb (String.eqb k) (List.map fst m) then List.map fst m
    else List.map fst m ++ [k].
Proof.
  induction m as [|[k' v'] m IH]; simpl; [reflexivity |].
  rewrite (String.eqb_sym k k'). destruct (String.eqb_spec k' k) as [E | E]; simpl.
  - subst k'. reflexivity.
  - rewrite IH. destruct (existsb (String.eqb k) (List.map fst m)); reflexivity.
Qed.

Lemma mapSet_keys_setAdd (k : string) (v : Js.value) (m : list (string * Js.value)) :
  List.map fst (Js.mapSet k v m) = Query.setAdd (List.map fst m) k.
Proof. rewrite mapSet_keys. reflexivity. Qed.

Lemma lookup_mapSet_same (k : string) (v : Js.value) (m : list (string * Js.value)) :
  Js.lookup k (Js.mapSet k v m) = v.
Proof.
  induction m as [|[k' v'] m IH]; simpl.
  - rewrite String.eqb_refl. reflexivity.
  - destruct (String.eqb k' k) eqn:E; simpl.
    + rewrite String.eqb_refl. reflexivity.
    + rewrite E. exact IH.
Qed.

Lemma mapSet_tagged (k : string) (v : Js.value) (m : list (string * Js.value)) :
  k <> "" -> JsString.toLowerCase k = k ->
  Facts.tagged m -> Facts.tagged (Js.mapSet k v m).
Proof.
  intros Hk Hl [N F]. unfold Facts.tagged. rewrite mapSet_keys_setAdd. split.
  - apply setAdd_NoDup. exact N.
  - apply Forall_forall. intros x Hx. apply setAdd_In in Hx.
    destruct Hx as [Hx | Hx].
    + rewrite Forall_forall in F. exact (F x Hx).
    + subst x. split; assumption.
Qed.

Lemma examplesLoop_tagged (exs : list Js.value) (m m' : list (string * Js.value)) :
  Facts.tagged m -> Normalizer.examplesLoop exs m = Js.OK m' -> Facts.tagged m'.
Proof.
  revert m; induction exs as [|ex exs IH]; intros m T H; simpl in H.
  - injection H as H. subst m'. exact T.
  - destruct (negb (Js.truthy ex)); [exact (IH m T H) |].
    destruct ex; try (destruct (Js.or _ _) as [ | | | | l | | ]; try discriminate H;
      destruct (JsString.isEmpty (JsString.toLowerCase l)) eqn:E;
      [exact (IH m T H) |
       refine (IH _ (mapSet_tagged _ _ m _ (toLowerCase_idem l) T) H);
       intro Z; rewrite Z in E; discriminate E]).
    exact (IH m T H).
Qed.

(** X5. The example map of a payload has pairwise distinct language
    tags, each of them non-empty and in lower case. *)
Theorem toExamplesMap_tags (examples : Js.value) (m : list (string * Js.value)) :
  Normalizer.toExamplesMap examples = Js.OK m -> Facts.tagged m.
Proof.
  assert (T0 : Facts.tagged []) by (split; constructor).
  destruct examples; simpl; intro H;
    try (injection H as H; subst m; exact T0).
  exact (examplesLoop_tagged _ _ _ T0 H).
Qed.

Lemma toExamplesMap_tags_witness :
  Normalizer.toExamplesMap
    (Js.VArr [Js.VObj [("lang", Js.VStr "Lua"); ("code", Js.VStr "a")];
              Js.VObj [("lang", Js.VStr "JS"); ("code", Js.VStr "b")];
              Js.VObj [("lang", Js.VStr "lua"); ("code", Js.VStr "c")]])
    = Js.OK [("lua", Js.VStr "c"); ("js", Js.VStr "b")]
  /\ Facts.tagged [("lua", Js.VStr "c"); ("js", Js.VStr "b")].
Proof.
  split; [reflexivity |].
  exact (toExamplesMap_tags
           (Js.VArr [Js.VObj [("lang", Js.VStr "Lua"); ("code", Js.VStr "a")];
                     Js.VObj [("lang", Js.VStr "JS"); ("code", Js.VStr "b")];
                     Js.VObj [("lang", Js.VStr "lua"); ("code", Js.VStr "c")]])
           [("lua", Js.VStr "c"); ("js", Js.VStr "b")] eq_refl).
Defined.

Lemma examplesLoop_app (a b : list Js.value) (m : list (string * Js.value)) :
  Normalizer.examplesLoop (a ++ b) m
  = Js.bind (Normalizer.examplesLoop a m) (Normalizer.examplesLoop b).
Proof.
  revert m; induction a as [|ex a IH]; intro m; simpl; [reflexivity |].
  destruct (negb (Js.truthy ex)); [apply IH |].
  destruct ex; try apply IH;
    destruct (Js.or _ _); try reflexivity;
    destruct (JsString.isEmpty _); apply IH.
Qed.

Lemma examples_last_code (exs : list Js.value) (ex : Js.value) (l : string)
    (m : list (string * Js.value)) :
  Js.get ex "lang" = Js.VStr l -> l <> "" ->
  Normalizer.toExamplesMap (Js.VArr (exs ++ [ex])) = Js.OK m ->
  View.mapGet (JsString.toLowerCase l) m = Js.or (Js.get ex "code") (Js.VStr "").
Proof.
  intros G Hl H. simpl in H. rewrite examplesLoop_app in H.
  destruct (Normalizer.examplesLoop exs []) as [m0 |]; [| discriminate H].
  simpl in H. destruct ex; try discriminate G.
  simpl Js.truthy in H. simpl negb in H. cbv iota in H.
  rewrite G in H.
  assert (T : Js.truthy (Js.VStr l) = true) by (destruct l; [contradiction Hl |]; reflexivity).
  unfold Js.or at 1 in H. rewrite T in H.
  destruct (JsString.isEmpty (JsString.toLowerCase l)) eqn:E.
  - destruct l; [contradiction Hl; reflexivity | discriminate E].
  - injection H as H. subst m. apply lookup_mapSet_same.
Qed.

(** X6. When examples repeat a language, the last one counts: if the
    list of examples ends with an object whose [lang] is a non-empty
    string, the map holds that object's [code] (or the empty string
    when the code is missing) under the lower-cased tag. *)
Theorem toExamplesMap_last (exs : list Js.value) (ex : Js.value) (l : string)
    (m : list (string * Js.value)) :
  Js.get ex "lang" = Js.VStr l -> l <> "" ->
  Normalizer.toExamplesMap (Js.VArr (exs ++ [ex])) = Js.OK m ->
  View.mapGet (JsString.toLowerCase l) m = Js.or (Js.get ex "code") (Js.VStr "").
Proof. exact (examples_last_code exs ex l m). Qed.

Lemma toExamplesMap_last_witness :
  View.mapGet "lua"
    [("lua", Js.VStr "c"); ("js", Js.VStr "b")] = Js.VStr "c".
Proof.
  exact (toExamplesMap_last
           [Js.VObj [("lang", Js.VStr "Lua"); ("code", Js.VStr "a")];
            Js.VObj [("lang", Js.VStr "JS"); ("code", Js.VStr "b")]]
           (Js.VObj [("lang", Js.VStr "lua"); ("code", Js.VStr "c")])
           "lua" [("lua", Js.VStr "c"); ("js", Js.VStr "b")]
           eq_refl ltac:(discriminate) eq_refl).
Defined.

(** ** The flattened collection *)

Lemma mapM_Forall2 {A B : Type} (f : A -> Js.result B) (l : list A) (l' : list B) :
  Js.mapM f l = Js.OK l' -> Forall2 (fun a b => f a = Js.OK b) l l'.
Proof.
  revert l'; induction l as [|a l IH]; intros l' H; simpl in H.
  - injection H as H. subst l'. constructor.
  - destruct (f a) as [b |] eqn:Fa; [| discriminate H]. simpl in H.
    destruct (Js.mapM f l) as [bs |]; [| discriminate H]. simpl in H.
    injection H as H. subst l'. constructor; [exact Fa | apply IH; reflexivity].
Qed.

Lemma mapM_throws {A B : Type} (f : A -> Js.result B) (l : list A) :
  Js.mapM f l = Js.TypeError <-> exists a, In a l /\ f a = Js.TypeError.
Proof.
  induction l as [|a l IH]; simpl.
  - split; [discriminate | intros [a [[] _]]].
  - destruct (f a) as [b |] eqn:Fa; simpl.
    + destruct (Js.mapM f l) as [bs |]; simpl.
      * split; [discriminate |]. intros [x [[Hx | Hx] Fx]].
        -- subst x. rewrite Fa in Fx. discriminate Fx.
        -- assert (Js.OK bs = Js.TypeError) as Z by (apply IH; exists x; split; assumption).
           discriminate Z.
      * split; [| reflexivity]. intros _.
        destruct (proj1 IH eq_refl) as [x [Hx Fx]]. exists x. split; [right; exact Hx | exact Fx].
    + split; [| reflexivity]. intros _. exists a. split; [left; reflexivity | exact Fa].
Qed.

Lemma or_not_nullish (v : Js.value) : Js.nullish (Js.or v (Js.VObj [])) = false.
Proof. unfold Js.or. destruct (Js.truthy v) eqn:T; [| reflexivity]. destruct v; try reflexivity; discriminate T. Qed.

Lemma Object_entries_or (v : Js.value) :
  Js.Object_entries (Js.or v (Js.VObj [])) = Js.OK (Js.ownEntries (Js.or v (Js.VObj []))).
Proof. unfold Js.Object_entries. rewrite or_not_nullish. reflexivity. Qed.

Lemma flattenNamespace_Forall2 (p : string * Js.value) (g : list Normalizer.entry) :
  Normalizer.flattenNamespace p = Js.OK g ->
  Forall2 Facts.normalizes
    (List.map (fun kv => (fst p, fst kv, snd kv)) (Js.ownEntries (Js.or (snd p) (Js.VObj []))))
    g.
Proof.
  unfold Normalizer.flattenNamespace. rewrite Object_entries_or. simpl. intro H.
  apply mapM_Forall2 in H.
  induction H as [| kv e es g' Hkv _ IH]; simpl; constructor; assumption.
Qed.

(** X7. When [flatten] returns, the collection has one entry for each
    payload of the dataset, in the order of the namespaces and, within a
    namespace, of the entries: the i-th entry is the normal form of the
    i-th payload. *)
Theorem flatten_in_order (db : Js.value) (items : list Normalizer.entry) :
  Normalizer.flatten db = Js.OK items ->
  Forall2 Facts.normalizes (Facts.payloads db) items
  /\ List.length items = List.length (Facts.payloads db).
Proof.
  intro H.
  assert (F : Forall2 Facts.normalizes (Facts.payloads db) items).
  { unfold Normalizer.flatten in H. rewrite Object_entries_or in H. simpl in H.
    destruct (Js.mapM Normalizer.flattenNamespace _) as [groups |] eqn:M; [| discriminate H].
    simpl in H. injection H as H. subst items.
    apply mapM_Forall2 in M. unfold Facts.payloads.
    induction M as [| p g ps gs Hp _ IH]; simpl; [constructor |].
    apply Forall2_app; [exact (flattenNamespace_Forall2 p g Hp) | exact IH]. }
  split; [exact F | symmetry; exact (Forall2_length F)].
Qed.

Lemma flatten_in_order_witness :
  Forall2 Facts.normalizes
    (Facts.payloads (Js.VObj [("A", Js.VObj [("0x1", Js.VNull); ("0x2", Js.VNull)]);
                              ("B", Js.VObj [("0x3", Js.VNull)])]))
    [Spec.defaults "A" "0x1" []; Spec.defaults "A" "0x2" []; Spec.defaults "B" "0x3" []]
  /\ 3 = List.length
           (Facts.payloads (Js.VObj [("A", Js.VObj [("0x1", Js.VNull); ("0x2", Js.VNull)]);
                                     ("B", Js.VObj [("0x3", Js.VNull)])])).
Proof.
  exact (flatten_in_order
           (Js.VObj [("A", Js.VObj [("0x1", Js.VNull); ("0x2", Js.VNull)]);
                     ("B", Js.VObj [("0x3", Js.VNull)])])
           [Spec.defaults "A" "0x1" []; Spec.defaults "A" "0x2" []; Spec.defaults "B" "0x3" []]
           eq_refl).
Defined.

Lemma flattenNamespace_throws (p : string * Js.value) :
  Normalizer.flattenNamespace p = Js.TypeError <->
  exists kv, In kv (Js.ownEntries (Js.or (snd p) (Js.VObj [])))
             /\ Normalizer.normalize (fst p) (fst kv) (snd kv) = Js.TypeError.
Proof.
  unfold Normalizer.flattenNamespace. rewrite Object_entries_or. simpl.
  apply mapM_throws.
Qed.

(** X8. [flatten] throws exactly when one payload of the dataset cannot
    be normalized: a single malformed payload makes the whole dataset
    fail, and nothing else does. *)
Theorem flatten_throws_iff (db : Js.value) :
  Normalizer.flatten db = Js.TypeError <->
  exists p, In p (Facts.payloads db)
            /\ Normalizer.normalize (fst (fst p)) (snd (fst p)) (snd p) = Js.TypeError.
Proof.
  unfold Normalizer.flatten, Facts.payloads. rewrite Object_entries_or. simpl.
  destruct (Js.mapM Normalizer.flattenNamespace _) as [groups |] eqn:M; simpl.
  - split; [discriminate |]. intros [[[nsKey hashKey] n0] [Hp Fp]].
    apply in_flat_map in Hp. destruct Hp as [q [Hq Hp]].
    apply in_map_iff in Hp. destruct Hp as [kv [E Hkv]]. injection E as E1 E2 E3. subst.
    assert (Js.OK groups = Js.TypeError) as Z.
    { rewrite <- M. apply mapM_throws. exists q. split; [exact Hq |].
      apply flattenNamespace_throws. exists kv. split; [exact Hkv | exact Fp]. }
    discriminate Z.
  - split; [| reflexivity]. intros _.
    apply mapM_throws in M. destruct M as [q [Hq Fq]].
    apply flattenNamespace_throws in Fq. destruct Fq as [kv [Hkv Fkv]].
    exists (fst q, fst kv, snd kv). split; [| exact Fkv].
    apply in_flat_map. exists q. split; [exact Hq |].
    apply in_map_iff. exists kv. split; [reflexivity | exact Hkv].
Qed.

Lemma flatten_throws_iff_witness :
  Normalizer.flatten
    (Js.VObj [("CFX", Js.VObj [("0x1", Js.VNull); ("0x2", Js.VObj [("params", Js.VNum 3)])])])
  = Js.TypeError.
Proof.
  apply (proj2 (flatten_throws_iff _)).
  exists ("CFX", "0x2", Js.VObj [("params", Js.VNum 3)]).
  split; [right; left; reflexivity | reflexivity].
Defined.

Lemma escapeHtml_identity_iff_witness :
  Html.escapeHtml (Js.VStr "GetPlayerPed 0x1") = Js.OK "GetPlayerPed 0x1".
Proof. exact (proj2 (escapeHtml_identity_iff "GetPlayerPed 0x1") eq_refl). Defined.

(** What [normalize] has computed when it returns. *)
Lemma normalize_inv (nsKey hashKey : string) (n0 : Js.value) (e : Normalizer.entry) :
  Normalizer.normalize nsKey hashKey n0 = Js.OK e ->
  let n := Js.or n0 (Js.VObj []) in
  exists params joined,
    Normalizer.normalizeApiSet n = Js.OK (Normalizer.apiset e)
    /\ Normalizer.rawToPascal (Normalizer.name e) = Js.OK (Normalizer.luaName e)
    /\ Normalizer.toExamplesMap (Js.get n "examples") = Js.OK (Normalizer.exMap e)
    /\ Normalizer.paramsText (Js.get n "params") = Js.OK params
    /\ Js.joinValues (String "010" "")
         [ Normalizer.name e; Normalizer.luaName e; Normalizer.hash e; Js.VStr nsKey;
           Js.or (Js.get n "description") (Js.VStr ""); Js.VStr params;
           Js.or (Js.get n "results") (Js.VStr "");
           Js.or (Js.get n "resultsDescription") (Js.VStr "") ] = Js.OK joined
    /\ Normalizer.searchText e = JsString.toLowerCase joined
    /\ Normalizer.rest e = Js.ownEntries n
    /\ Normalizer.name e = Js.or (Js.get n "name") (Js.VStr "")
    /\ Normalizer.hash e = Js.or (Js.get n "hash") (Js.VStr hashKey)
    /\ Normalizer.ns e = Js.or (Js.get n "ns") (Js.VStr nsKey).
Proof.
  unfold Normalizer.normalize. intro H. cbv zeta in *.
  set (n := Js.or n0 (Js.VObj [])) in *.
  destruct (Normalizer.normalizeApiSet n) as [a |]; [| discriminate H]. simpl in H.
  destruct (Normalizer.rawToPascal _) as [l |] eqn:R; [| discriminate H]. simpl in H.
  destruct (Normalizer.toExamplesMap _) as [m |]; [| discriminate H]. simpl in H.
  destruct (Normalizer.paramsText _) as [p |]; [| discriminate H]. simpl in H.
  destruct (Js.joinValues _ _) as [j |] eqn:J; [| discriminate H]. simpl in H.
  injection H as H. subst e. simpl. exists p, j. repeat split; assumption.
Qed.

Lemma toLowerCase_append (a b : string) :
  JsString.toLowerCase (a ++ b)%string
  = (JsString.toLowerCase a ++ JsString.toLowerCase b)%string.
Proof.
  unfold JsString.toLowerCase. induction a as [|x a IH]; simpl; [reflexivity |].
  rewrite IH. reflexivity.
Qed.

Lemma normalizeApiSet_lower (n : Js.value) (a : string) :
  Normalizer.normalizeApiSet n = Js.OK a -> JsString.toLowerCase a = a.
Proof.
  rewrite normalizeApiSet_unfold. destruct (Js.nullish n); [discriminate |].
  destruct (Js.or _ _); try discriminate.
  intro H. injection H as H. subst a. apply toLowerCase_idem.
Qed.

(** X9. In a collection returned by [flatten], the search text and the
    API set of every entry are in lower case. *)
Theorem flatten_lower_case (db : Js.value) (items : list Normalizer.entry) :
  Normalizer.flatten db = Js.OK items ->
  Forall (fun e => JsString.toLowerCase (Normalizer.searchText e) = Normalizer.searchText e
                   /\ JsString.toLowerCase (Normalizer.apiset e) = Normalizer.apiset e) items.
Proof.
  intro H. apply Forall_forall. intros e He.
  destruct (flatten_In db items H e He) as [nsKey [hashKey [n0 N]]].
  destruct (normalize_inv _ _ _ _ N) as [p [j [A [_ [_ [_ [_ [S _]]]]]]]].
  split.
  - rewrite S. apply toLowerCase_idem.
  - exact (normalizeApiSet_lower _ _ A).
Qed.

Lemma flatten_lower_case_witness :
  Forall (fun e => JsString.toLowerCase (Normalizer.searchText e) = Normalizer.searchText e
                   /\ JsString.toLowerCase (Normalizer.apiset e) = Normalizer.apiset e)
    [Spec.defaults "CFX" "0xAB" []].
Proof.
  exact (flatten_lower_case (Js.VObj [("CFX", Js.VObj [("0xAB", Js.VNull)])])
           [Spec.defaults "CFX" "0xAB" []] eq_refl).
Defined.

(** ** Searching the collection *)

Lemma substring_refl (q : string) : Spec.substring q q.
Proof.
  exists EmptyString, EmptyString. simpl.
  induction q as [|a q IH]; simpl; [reflexivity | rewrite <- IH; reflexivity].
Qed.

Lemma substring_append_l (q a b : string) :
  Spec.substring q a -> Spec.substring q (a ++ b)%string.
Proof.
  intros [before [after E]]. subst a. exists before, (after ++ b)%string.
  rewrite !append_assoc_s. reflexivity.
Qed.

Lemma substring_append_r (q a b : string) :
  Spec.substring q b -> Spec.substring q (a ++ b)%string.
Proof.
  intros [before [after E]]. subst b. exists (a ++ before)%string, after.
  rewrite !append_assoc_s. reflexivity.
Qed.

Lemma substring_trans (p q s : string) :
  Spec.substring p q -> Spec.substring q s -> Spec.substring p s.
Proof.
  intros [b1 [a1 E1]] [b2 [a2 E2]]. subst q s.
  exists (b2 ++ b1)%string, (a1 ++ a2)%string. rewrite !append_assoc_s. reflexivity.
Qed.

Lemma joinValues_parts (sep : string) (items : list Js.value) (joined : string) :
  Js.joinValues sep items = Js.OK joined ->
  exists parts,
    Forall2 (fun v s => (if Js.nullish v then Js.OK EmptyString else Js.ToString v) = Js.OK s)
      items parts
    /\ joined = JsString.join sep parts.
Proof.
  unfold Js.joinValues. destruct (Js.mapM _ items) as [parts |] eqn:M; [| discriminate].
  simpl. intro H. injection H as H. subst joined.
  exists parts. split; [exact (mapM_Forall2 _ _ _ M) | reflexivity].
Qed.

Ltac skip_part :=
  rewrite toLowerCase_append; apply substring_append_r;
  rewrite toLowerCase_append; apply substring_append_r.

Ltac this_part :=
  rewrite toLowerCase_append; apply substring_append_l; apply substring_refl.

Lemma searchText_fields (nsKey hashKey : string) (n0 : Js.value) (e : Normalizer.entry)
    (s : string) :
  Normalizer.normalize nsKey hashKey n0 = Js.OK e ->
  Normalizer.name e = Js.VStr s \/ Normalizer.luaName e = Js.VStr s
  \/ Normalizer.hash e = Js.VStr s ->
  Spec.substring (JsString.toLowerCase s) (Normalizer.searchText e).
Proof.
  intros N F.
  destruct (normalize_inv _ _ _ _ N) as [p [j [_ [_ [_ [_ [J [S _]]]]]]]].
  apply joinValues_parts in J. destruct J as [parts [P E]].
  rewrite S, E. clear S E N.
  repeat match goal with
         | H : Forall2 _ (_ :: _) _ |- _ => inversion H; clear H; subst
         | H : Forall2 _ [] _ |- _ => inversion H; clear H; subst
         end.
  unfold JsString.join. cbn [String.concat].
  destruct F as [F | [F | F]]; rewrite F in *; cbn [Js.nullish Js.ToString] in *;
    repeat match goal with
           | H : Js.OK _ = Js.OK _ |- _ => injection H as H
           end; subst.
  - this_part.
  - skip_part. this_part.
  - skip_part. skip_part. this_part.
Qed.

(** X10. An entry of a flattened collection is listed whenever both
    selectors are ["all"] and the query, trimmed and without regard to
    letter case, is the entry's raw name, its display name or its key. *)
Theorem search_finds_own_text (db : Js.value) (items : list Normalizer.entry)
    (e : Normalizer.entry) (c : Query.controls) (s : string) :
  Normalizer.flatten db = Js.OK items ->
  In e items ->
  Normalizer.name e = Js.VStr s \/ Normalizer.luaName e = Js.VStr s
  \/ Normalizer.hash e = Js.VStr s ->
  Query.elApi c = "all" -> Query.elNs c = "all" ->
  JsString.toLowerCase (JsString.trim (Query.elQ c)) = JsString.toLowerCase s ->
  In e (Query.filtered c items).
Proof.
  intros H He F Ha Hn Hq. unfold Query.filtered. apply filter_In. split; [exact He |].
  destruct (flatten_In db items H e He) as [nsKey [hashKey [n0 N]]].
  pose proof (searchText_fields _ _ _ _ s N F) as S. apply includes_iff in S.
  unfold Query.keep. rewrite Ha, Hn, Hq, S. simpl.
  rewrite andb_false_r. reflexivity.
Qed.

Lemma search_finds_own_text_witness :
  In (Spec.defaults "CFX" "0xAB" [])
    (Query.filtered (Query.mkControls " 0Xab " "all" "raw" "all") [Spec.defaults "CFX" "0xAB" []]).
Proof.
  apply (search_finds_own_text (Js.VObj [("CFX", Js.VObj [("0xAB", Js.VNull)])])
           [Spec.defaults "CFX" "0xAB" []] (Spec.defaults "CFX" "0xAB" [])
           (Query.mkControls " 0Xab " "all" "raw" "all") "0xAB").
  - reflexivity.
  - left. reflexivity.
  - right. right. reflexivity.
  - reflexivity.
  - reflexivity.
  - reflexivity.
Defined.

(** ** Names and signatures of flattened entries *)

(** X11. For every entry of a flattened collection, the label of the
    list and the title of the detail view are computed without error:
    the label is the display name for the languages lua, cs and js and
    the raw name otherwise; the title is the raw name for the language
    raw and the display name otherwise; the alternative name is the
    other of the two. *)
Theorem display_names_agree (db : Js.value) (items : list Normalizer.entry)
    (e : Normalizer.entry) (lang : string) :
  Normalizer.flatten db = Js.OK items ->
  In e items ->
  View.labelName lang e
    = Js.OK (if String.eqb lang "lua" || String.eqb lang "cs" || String.eqb lang "js"
             then Normalizer.luaName e else Normalizer.name e)
  /\ View.title lang e
     = Js.OK (if String.eqb lang "raw" then Normalizer.name e else Normalizer.luaName e)
  /\ View.alt lang e
     = (if String.eqb lang "raw" then Normalizer.luaName e else Normalizer.name e).
Proof.
  intros H He.
  destruct (flatten_In db items H e He) as [nsKey [hashKey [n0 N]]].
  destruct (normalize_inv _ _ _ _ N) as [p [j [_ [R _]]]].
  unfold View.labelName, View.title, View.alt. repeat split.
  - destruct (String.eqb lang "lua"); simpl.
    + destruct (Js.truthy (Normalizer.luaName e)); [reflexivity | exact R].
    + destruct (String.eqb lang "cs"); simpl; [exact R |].
      destruct (String.eqb lang "js"); [exact R | reflexivity].
  - destruct (String.eqb lang "raw"); [reflexivity |].
    destruct (String.eqb lang "lua"); [reflexivity | exact R].
Qed.

Lemma display_names_agree_witness :
  View.labelName "cs" (Spec.defaults "CFX" "0xAB" []) = Js.OK (Js.VStr "").
Proof.
  exact (proj1 (display_names_agree (Js.VObj [("CFX", Js.VObj [("0xAB", Js.VNull)])])
                  [Spec.defaults "CFX" "0xAB" []] (Spec.defaults "CFX" "0xAB" []) "cs"
                  eq_refl (or_introl eq_refl))).
Defined.

Lemma ofNat_head (i : nat) :
  exists c r, JsString.ofNat i = String c r /\ JsString.isDigit c = true.
Proof.
  unfold JsString.ofNat, NilZero.string_of_uint.
  destruct (Nat.to_uint i); simpl; eexists; eexists; split; reflexivity.
Qed.

Lemma lookup_indexed (c : ascii) (r : string) (l : list Js.value) (i : nat) :
  JsString.isDigit c = false ->
  Js.lookup (String c r) (Js.indexed i l) = Js.VUndefined.
Proof.
  intro D. revert i; induction l as [|a l IH]; intro i; simpl; [reflexivity |].
  destruct (ofNat_head i) as [c' [r' [E D']]]. rewrite E.
  destruct (String.eqb_spec (String c' r') (String c r)) as [Z | Z].
  - injection Z as Z1 Z2. subst c'. rewrite D in D'. discriminate D'.
  - apply IH.
Qed.

Lemma ownEntries_lookup (n : Js.value) (c : ascii) (r : string) :
  JsString.isDigit c = false ->
  Js.lookup (String c r) (Js.ownEntries n) = Js.get n (String c r).
Proof.
  intro D. destruct n; try reflexivity; simpl; apply lookup_indexed; exact D.
Qed.

Lemma ToString_or_default (v : Js.value) (a b : string) :
  Facts.succeeds (Js.ToString (Js.or v (Js.VStr a))) ->
  Facts.succeeds (Js.ToString (Js.or v (Js.VStr b))).
Proof.
  unfold Js.or. destruct (Js.truthy v); [exact (fun H => H) |].
  intros _. exists b. reflexivity.
Qed.

Lemma mapM_succeeds {A B C : Type} (f : A -> Js.result B) (g : A -> Js.result C)
    (l : list A) :
  (forall a, Facts.succeeds (f a) -> Facts.succeeds (g a)) ->
  Facts.succeeds (Js.mapM f l) -> Facts.succeeds (Js.mapM g l).
Proof.
  intro I. induction l as [|a l IH]; simpl; intros [bs H].
  - exists []. reflexivity.
  - destruct (f a) as [b |] eqn:Fa; [| discriminate H]. simpl in H.
    destruct (Js.mapM f l) as [bs' |]; [| discriminate H].
    destruct (I a) as [c Gc]; [rewrite Fa; exists b; reflexivity |].
    destruct IH as [cs Gcs]; [exists bs'; reflexivity |].
    rewrite Gc, Gcs. exists (c :: cs). reflexivity.
Qed.

Lemma paramText_parts (p : Js.value) :
  Facts.succeeds (Normalizer.paramText p) ->
  Js.nullish p = false
  /\ Facts.succeeds (Js.ToString (Js.or (Js.get p "name") (Js.VStr "")))
  /\ Facts.succeeds (Js.ToString (Js.or (Js.get p "type") (Js.VStr ""))).
Proof.
  unfold Normalizer.paramText. intros [s H].
  destruct (Js.nullish p); [discriminate H |].
  destruct (Js.ToString (Js.or (Js.get p "name") _)) as [a |]; [| discriminate H]. simpl in H.
  destruct (Js.ToString (Js.or (Js.get p "type") _)) as [b |]; [| discriminate H].
  repeat split; eexists; reflexivity.
Qed.

Lemma typedParam_succeeds (dflt : string) (p : Js.value) :
  Facts.succeeds (Normalizer.paramText p) ->
  Facts.succeeds (Signature.typedParam dflt p).
Proof.
  intro H. destruct (paramText_parts p H) as [N [A T]].
  unfold Signature.typedParam. rewrite N.
  destruct (ToString_or_default _ "" dflt T) as [t Et].
  destruct (ToString_or_default _ "" "p" A) as [a Ea].
  rewrite Et, Ea. eexists. reflexivity.
Qed.

Lemma namedParam_succeeds (p : Js.value) :
  Facts.succeeds (Normalizer.paramText p) ->
  Facts.succeeds (Signature.namedParam p).
Proof.
  intro H. destruct (paramText_parts p H) as [N [A _]].
  unfold Signature.namedParam. rewrite N.
  exact (ToString_or_default _ "" "p" A).
Qed.

Lemma render_succeeds (v : Js.value) (s : string) :
  (if Js.nullish v then Js.OK EmptyString else Js.ToString v) = Js.OK s ->
  Facts.succeeds (Js.ToString v).
Proof.
  destruct v; simpl; intro H; try (eexists; reflexivity); exists s; exact H.
Qed.

Lemma or_twice (v : Js.value) (a : string) :
  Js.or (Js.or v (Js.VStr a)) (Js.VStr a) = Js.or v (Js.VStr a).
Proof.
  unfold Js.or. destruct (Js.truthy v) eqn:T; [rewrite T; reflexivity |].
  destruct (Js.truthy (Js.VStr a)); reflexivity.
Qed.

Lemma signature_parts (nsKey hashKey : string) (n0 : Js.value) (e : Normalizer.entry) :
  Normalizer.normalize nsKey hashKey n0 = Js.OK e ->
  (exists ps, Js.or (Signature.copied e "params") (Js.VArr []) = Js.VArr ps
              /\ Facts.succeeds (Js.mapM Normalizer.paramText ps))
  /\ Normalizer.rawToPascal (Js.or (Normalizer.name e) (Js.VStr "")) = Js.OK (Normalizer.luaName e)
  /\ Facts.succeeds (Js.ToString (Normalizer.luaName e))
  /\ Facts.succeeds (Js.ToString (Js.or (Normalizer.name e) (Js.VStr "")))
  /\ Facts.succeeds (Js.ToString (Js.or (Signature.copied e "results") (Js.VStr "void"))).
Proof.
  intro N.
  destruct (normalize_inv _ _ _ _ N) as [p [j [_ [R [_ [P [J [_ [Hrest [Hname _]]]]]]]]]].
  assert (Cp : Signature.copied e "params" = Js.get (Js.or n0 (Js.VObj [])) "params").
  { unfold Signature.copied. rewrite Hrest. apply ownEntries_lookup. reflexivity. }
  assert (Cr : Signature.copied e "results" = Js.get (Js.or n0 (Js.VObj [])) "results").
  { unfold Signature.copied. rewrite Hrest. apply ownEntries_lookup. reflexivity. }
  assert (En : Js.or (Normalizer.name e) (Js.VStr "") = Normalizer.name e).
  { rewrite Hname. apply or_twice. }
  apply joinValues_parts in J. destruct J as [parts [F _]].
  inversion F as [| v1 s1 l1 r1 H1 F1]; subst.
  inversion F1 as [| v2 s2 l2 r2 H2 F2]; subst.
  inversion F2 as [| v3 s3 l3 r3 H3 F3]; subst.
  inversion F3 as [| v4 s4 l4 r4 H4 F4]; subst.
  inversion F4 as [| v5 s5 l5 r5 H5 F5]; subst.
  inversion F5 as [| v6 s6 l6 r6 H6 F6]; subst.
  inversion F6 as [| v7 s7 l7 r7 H7 F7]; subst.
  repeat split.
  - rewrite Cp. unfold Normalizer.paramsText in P.
    destruct (Js.or (Js.get _ "params") (Js.VArr [])) as [ | | | | | ps | ]; try discriminate P.
    exists ps. split; [reflexivity |].
    destruct (Js.mapM Normalizer.paramText ps) as [l |]; [| discriminate P].
    exists l. reflexivity.
  - rewrite En. exact R.
  - exact (render_succeeds _ _ H2).
  - rewrite En. exact (render_succeeds _ _ H1).
  - rewrite Cr. apply (ToString_or_default _ "" "void"). exact (render_succeeds _ _ H7).
Qed.

Lemma joinParams_succeeds (render : Js.value -> Js.result string) (sep : string)
    (e : Normalizer.entry) (ps : list Js.value) :
  (forall p, Facts.succeeds (Normalizer.paramText p) -> Facts.succeeds (render p)) ->
  Js.or (Signature.copied e "params") (Js.VArr []) = Js.VArr ps ->
  Facts.succeeds (Js.mapM Normalizer.paramText ps) ->
  Facts.succeeds (Signature.joinParams render sep e).
Proof.
  intros I E M. unfold Signature.joinParams. rewrite E.
  destruct (mapM_succeeds _ render ps I M) as [parts Hp]. rewrite Hp.
  eexists. reflexivity.
Qed.

(** X12. Every entry of a flattened collection can be rendered: none of
    the four signature formatters throws on it. *)
Theorem signatures_never_throw (db : Js.value) (items : list Normalizer.entry)
    (e : Normalizer.entry) :
  Normalizer.flatten db = Js.OK items ->
  In e items ->
  Facts.succeeds (Signature.formatRawSignature e)
  /\ Facts.succeeds (Signature.formatLuaSignature e)
  /\ Facts.succeeds (Signature.formatCsSignature e)
  /\ Facts.succeeds (Signature.formatJsSignature e).
Proof.
  intros H He.
  destruct (flatten_In db items H e He) as [nsKey [hashKey [n0 N]]].
  destruct (signature_parts _ _ _ _ N) as [[ps [E M]] [R [[l Tl] [[nm Tn] [rs Tr]]]]].
  destruct (joinParams_succeeds (Signature.typedParam "Any") ", " e ps
              (typedParam_succeeds "Any") E M) as [pa Ha].
  destruct (joinParams_succeeds (Signature.typedParam "object") ", " e ps
              (typedParam_succeeds "object") E M) as [po Ho].
  destruct (joinParams_succeeds Signature.namedParam ", " e ps
              namedParam_succeeds E M) as [pn Hn].
  unfold Signature.formatRawSignature, Signature.formatLuaSignature,
    Signature.formatCsSignature, Signature.formatJsSignature.
  rewrite Ha, Ho, Hn, R. simpl. rewrite Tl, Tn, Tr. simpl.
  repeat split; eexists; reflexivity.
Qed.

Lemma signatures_never_throw_witness :
  exists e,
    Normalizer.flatten
      (Js.VObj [("CFX", Js.VObj [("0x1", Js.VObj [("name", Js.VStr "GET_PED");
          ("results", Js.VStr "Ped");
          ("params", Js.VArr [Js.VObj [("name", Js.VStr "player")]; Js.VNum 1])])])])
    = Js.OK [e]
    /\ Facts.succeeds (Signature.formatLuaSignature e).
Proof.
  eexists. split; [reflexivity |].
  exact (proj1 (proj2 (signatures_never_throw
    (Js.VObj [("CFX", Js.VObj [("0x1", Js.VObj [("name", Js.VStr "GET_PED");
        ("results", Js.VStr "Ped");
        ("params", Js.VArr [Js.VObj [("name", Js.VStr "player")]; Js.VNum 1])])])])
    _ _ eq_refl (or_introl eq_refl)))).
Defined.

Example signatures_run :
  match Normalizer.flatten
      (Js.VObj [("CFX", Js.VObj [("0x1", Js.VObj [("name", Js.VStr "GET_PED");
          ("results", Js.VStr "Ped");
          ("params", Js.VArr [Js.VObj [("name", Js.VStr "player"); ("type", Js.VStr "Player")];
                              Js.VNum 1])])])]) with
  | Js.OK [e] =>
      Signature.formatLuaSignature e = Js.OK "local result = GetPed(player, p)"
      /\ Signature.formatJsSignature e = Js.OK "GetPed(player, p);"
      /\ Signature.formatCsSignature e = Js.OK "Ped GetPed(Player player, object p);"
      /\ Signature.formatRawSignature e
         = Js.OK ("// GetPed" ++ String "010" "Ped GET_PED(Player player, Any p);")%string
  | _ => False
  end.
Proof. repeat split. Qed.

(** ** Display names, continued *)

Lemma split_no_separator (sep : ascii) (s seg : string) :
  In seg (JsString.split sep s) ->
  JsString.forallb (fun c => negb (Ascii.eqb c sep)) seg = true.
Proof.
  revert seg; induction s as [|c r IH]; intros seg H; simpl in H.
  - destruct H as [H | []]. subst seg. reflexivity.
  - destruct (Ascii.eqb c sep) eqn:E.
    + destruct H as [H | H]; [subst seg; reflexivity | exact (IH seg H)].
    + destruct (JsString.split sep r) as [|seg0 rest] eqn:S.
      * destruct H as [H | []]. subst seg. simpl. rewrite E. reflexivity.
      * destruct H as [H | H].
        -- subst seg. simpl. rewrite E. simpl. apply IH. left. reflexivity.
        -- apply IH. right. exact H.
Qed.

Lemma upperChar_keeps_underscore (c : ascii) :
  Ascii.eqb (JsString.upperChar c) "_" = Ascii.eqb c "_".
Proof. destruct c as [[] [] [] [] [] [] [] []]; reflexivity. Qed.

Lemma upperChar_not_lower (c : ascii) : JsString.isLower (JsString.upperChar c) = false.
Proof. destruct c as [[] [] [] [] [] [] [] []]; reflexivity. Qed.

Lemma concat_forallb (p : ascii -> bool) (l : list string) :
  Forall (fun s => JsString.forallb p s = true) l ->
  JsString.forallb p (String.concat "" l) = true.
Proof.
  induction 1 as [| s l Hs _ IH]; [reflexivity |].
  simpl. destruct l as [|t l]; [exact Hs |].
  rewrite forallb_append, Hs. simpl (JsString.forallb p ("" ++ _)). exact IH.
Qed.

Lemma pascal_segments (raw : string) :
  exists segs,
    Normalizer.pascal raw = String.concat "" (List.map Normalizer.capitalize segs)
    /\ Forall (fun seg => JsString.isEmpty seg = false
                          /\ JsString.forallb (fun c => negb (Ascii.eqb c "_")) seg = true) segs.
Proof.
  unfold Normalizer.pascal, JsString.join.
  set (parts := JsString.split "_" _).
  exists (List.filter (fun p => negb (JsString.isEmpty p)) parts).
  split; [reflexivity |]. apply Forall_forall. intros seg H.
  apply filter_In in H. destruct H as [H E]. split.
  - apply negb_true_iff. exact E.
  - exact (split_no_separator "_" _ seg H).
Qed.

(** X13. On a string that does not begin like a hash, the display name
    computed by [rawToPascal] contains no underscore and does not begin
    with one of the letters a to z. *)
Theorem rawToPascal_shape (raw out : string) :
  JsString.testHashName raw = false ->
  Normalizer.rawToPascal (Js.VStr raw) = Js.OK (Js.VStr out) ->
  JsString.forallb (fun c => negb (Ascii.eqb c "_")) out = true
  /\ match out with
     | String c _ => JsString.isLower c = false
     | EmptyString => True
     end.
Proof.
  intros T H. rewrite rawToPascal_string, T in H. injection H as H. subst out.
  destruct (pascal_segments raw) as [segs [E F]]. rewrite E. clear E. split.
  - apply concat_forallb. apply Forall_forall. intros s Hs.
    apply in_map_iff in Hs. destruct Hs as [seg [Es Hseg]]. subst s.
    rewrite Forall_forall in F. destruct (F seg Hseg) as [N U].
    destruct seg as [|c r]; [discriminate N |]. simpl in *.
    rewrite upperChar_keeps_underscore. exact U.
  - destruct segs as [|seg segs]; [exact I |].
    inversion F as [| x l [N _] _]; subst.
    destruct seg as [|c r]; [discriminate N |].
    simpl. destruct (List.map Normalizer.capitalize segs); simpl; apply upperChar_not_lower.
Qed.

Lemma rawToPascal_shape_witness :
  JsString.forallb (fun c => negb (Ascii.eqb c "_")) "GetPlayerPed" = true
  /\ JsString.isLower "G" = false.
Proof.
  exact (rawToPascal_shape "__get_PLAYER__ped_" "GetPlayerPed" eq_refl eq_refl).
Defined.

Lemma test0x_eqb (s : string) :
  JsString.test0x s
  = match s with
    | String a (String b _) => Ascii.eqb a "0" && (Ascii.eqb b "x" || Ascii.eqb b "X")
    | _ => false
    end.
Proof.
  destruct s as [|a [|b r]]; [reflexivity | |];
    destruct a as [[] [] [] [] [] [] [] []]; reflexivity.
Qed.

Lemma testHashName_eqb (s : string) :
  JsString.testHashName s
  = match s with
    | String a r => if Ascii.eqb a "_" then JsString.test0x r else JsString.test0x s
    | EmptyString => false
    end.
Proof.
  destruct s as [|a r]; [reflexivity |].
  destruct a as [[] [] [] [] [] [] [] []]; reflexivity.
Qed.

Lemma stripUnderscore_eqb (s : string) :
  JsString.stripUnderscore s
  = match s with
    | String a r => if Ascii.eqb a "_" then r else s
    | EmptyString => EmptyString
    end.
Proof.
  destruct s as [|a r]; [reflexivity |].
  destruct a as [[] [] [] [] [] [] [] []]; reflexivity.
Qed.

Lemma sameLetter_tests (a b : ascii) :
  Spec.sameLetter a b ->
  Ascii.eqb a "_" = Ascii.eqb b "_"
  /\ Ascii.eqb a "0" = Ascii.eqb b "0"
  /\ (Ascii.eqb a "x" || Ascii.eqb a "X") = (Ascii.eqb b "x" || Ascii.eqb b "X").
Proof.
  intros [E | [E | E]]; subst b; [repeat split | |];
    destruct a as [[] [] [] [] [] [] [] []]; repeat split.
Qed.

Lemma caseVariant_test0x (s t : string) :
  Spec.caseVariant s t -> JsString.test0x s = JsString.test0x t.
Proof.
  intro V. rewrite !test0x_eqb.
  inversion V as [| a b s' t' L V']; subst; [reflexivity |].
  inversion V' as [| a2 b2 s2 t2 L2 V2]; subst; [reflexivity |].
  destruct (sameLetter_tests a b L) as [_ [E0 _]].
  destruct (sameLetter_tests a2 b2 L2) as [_ [_ Ex]].
  rewrite E0, Ex. reflexivity.
Qed.

Lemma caseVariant_testHashName (s t : string) :
  Spec.caseVariant s t -> JsString.testHashName s = JsString.testHashName t.
Proof.
  intro V. rewrite !testHashName_eqb.
  inversion V as [| a b s' t' L V']; subst; [reflexivity |].
  destruct (sameLetter_tests a b L) as [Eu _]. rewrite Eu.
  destruct (Ascii.eqb b "_"); apply caseVariant_test0x; assumption.
Qed.

Lemma caseVariant_stripUnderscore (s t : string) :
  Spec.caseVariant s t ->
  Spec.caseVariant (JsString.stripUnderscore s) (JsString.stripUnderscore t).
Proof.
  intro V. rewrite !stripUnderscore_eqb.
  inversion V as [| a b s' t' L V']; subst; [constructor |].
  destruct (sameLetter_tests a b L) as [Eu _]. rewrite Eu.
  destruct (Ascii.eqb b "_"); assumption.
Qed.

(** X14. The display name does not depend on the case of the letters A
    to Z in the raw name: two raw names that differ only in the case of
    these letters, and do not begin like a hash, have the same display
    name. *)
Theorem rawToPascal_case_insensitive (a b : string) :
  Spec.caseVariant a b ->
  JsString.testHashName a = false ->
  Normalizer.rawToPascal (Js.VStr a) = Normalizer.rawToPascal (Js.VStr b).
Proof.
  intros V T. rewrite !rawToPascal_string, <- (caseVariant_testHashName a b V), T.
  unfold Normalizer.pascal.
  rewrite (caseVariant_lower _ _ (caseVariant_stripUnderscore a b V)). reflexivity.
Qed.

Lemma rawToPascal_case_insensitive_witness :
  Normalizer.rawToPascal (Js.VStr "_GET_ped") = Normalizer.rawToPascal (Js.VStr "_get_PED").
Proof.
  apply rawToPascal_case_insensitive; [| reflexivity].
  repeat (apply Spec.caseVariant_char;
          [first [left; reflexivity | right; left; reflexivity | right; right; reflexivity] |]).
  apply Spec.caseVariant_empty.
Defined.

(** ** The detail view *)

Lemma find_lower (items : list Normalizer.entry) (k1 k2 : string) :
  JsString.toLowerCase k1 = JsString.toLowerCase k2 ->
  View.find items k1 = View.find items k2.
Proof.
  intro E. induction items as [|x items IH]; simpl; [reflexivity |].
  rewrite E, IH. reflexivity.
Qed.

(** X15. The lookup of the detail view does not distinguish the case of
    the letters A to Z: two keys that differ only in the case of these
    letters give the same result on every collection. *)
Theorem find_case_insensitive (items : list Normalizer.entry) (k1 k2 : string) :
  Spec.caseVariant k1 k2 -> View.find items k1 = View.find items k2.
Proof. intro V. apply find_lower. exact (caseVariant_lower k1 k2 V). Qed.

Lemma find_case_insensitive_witness :
  View.find [Spec.defaults "CFX" "0xAb" []] "0XAB"
  = View.find [Spec.defaults "CFX" "0xAb" []] "0xab".
Proof.
  apply find_case_insensitive.
  repeat (apply Spec.caseVariant_char;
          [first [left; reflexivity | right; left; reflexivity | right; right; reflexivity] |]).
  apply Spec.caseVariant_empty.
Defined.

Lemma or_string_empty (h : string) : Js.or (Js.VStr h) (Js.VStr "") = Js.VStr h.
Proof. destruct h; reflexivity. Qed.

Lemma find_first (items : list Normalizer.entry) (key : string) :
  (forall x, In x items -> exists h, Normalizer.hash x = Js.VStr h) ->
  (exists before e after h,
      View.find items key = Js.OK (Some e)
      /\ items = before ++ e :: after
      /\ Normalizer.hash e = Js.VStr h
      /\ JsString.toLowerCase h = JsString.toLowerCase key
      /\ forall x k, In x before -> Normalizer.hash x = Js.VStr k ->
           JsString.toLowerCase k <> JsString.toLowerCase key)
  \/ (View.find items key = Js.OK None
      /\ forall x k, In x items -> Normalizer.hash x = Js.VStr k ->
           JsString.toLowerCase k <> JsString.toLowerCase key).
Proof.
  induction items as [|x items IH]; intro S; simpl.
  - right. split; [reflexivity | intros x k []].
  - destruct (S x (or_introl eq_refl)) as [h Hh]. rewrite Hh, or_string_empty.
    destruct (String.eqb_spec (JsString.toLowerCase h) (JsString.toLowerCase key)) as [E | E].
    + left. exists [], x, items, h. repeat split; try assumption. intros y k [].
    + destruct IH as [[before [e [after [h' [F [I [Hh' [El B]]]]]]]] | [F N]].
      * intros y Hy. apply S. right. exact Hy.
      * left. exists (x :: before), e, after, h'. repeat split; try assumption.
        -- rewrite I. reflexivity.
        -- intros y k [Hy | Hy] Hk; [| exact (B y k Hy Hk)].
           subst y. rewrite Hh in Hk. injection Hk as Hk. subst k. exact E.
      * right. split; [exact F |]. intros y k [Hy | Hy] Hk; [| exact (N y k Hy Hk)].
        subst y. rewrite Hh in Hk. injection Hk as Hk. subst k. exact E.
Qed.

(** X16. On a collection whose keys are strings the lookup of the
    detail view does not throw: it yields the first entry whose key
    equals the wanted key without regard to letter case, or nothing
    when no entry has such a key. *)
Theorem find_first_match (items : list Normalizer.entry) (key : string) :
  (forall x, In x items -> exists h, Normalizer.hash x = Js.VStr h) ->
  (exists before e after h,
      View.find items key = Js.OK (Some e)
      /\ items = before ++ e :: after
      /\ Normalizer.hash e = Js.VStr h
      /\ JsString.toLowerCase h = JsString.toLowerCase key
      /\ forall x k, In x before -> Normalizer.hash x = Js.VStr k ->
           JsString.toLowerCase k <> JsString.toLowerCase key)
  \/ (View.find items key = Js.OK None
      /\ forall x k, In x items -> Normalizer.hash x = Js.VStr k ->
           JsString.toLowerCase k <> JsString.toLowerCase key).
Proof. exact (find_first items key). Qed.

Lemma find_first_match_witness :
  View.find [Spec.defaults "CFX" "0x1" []; Spec.defaults "CFX" "0xAB" []] "0xab"
  = Js.OK (Some (Spec.defaults "CFX" "0xAB" [])).
Proof.
  destruct (find_first_match
              [Spec.defaults "CFX" "0x1" []; Spec.defaults "CFX" "0xAB" []] "0xab")
    as [[before [e [after [h [F _]]]]] | [F _]].
  - intros x [E | [E | []]]; subst x; eexists; reflexivity.
  - reflexivity.
  - discriminate F.
Defined.

Lemma parse_after_set (key : string) (loc : DeepLink.location) :
  JsString.test0x key = true ->
  DeepLink.parseHashFragment loc = None ->
  DeepLink.parseDeepLink (DeepLink.setDeepLink key loc) = Some key.
Proof.
  intros T F. unfold DeepLink.parseDeepLink.
  replace (DeepLink.parseHashFragment (DeepLink.setDeepLink key loc))
    with (DeepLink.parseHashFragment loc) by reflexivity.
  rewrite F. simpl DeepLink.nonEmpty. cbv iota.
  rewrite (setDeepLink_params key loc T), firstHashName_last; [reflexivity | | exact T].
  intros p Hp. apply filter_In in Hp. destruct Hp as [_ C].
  unfold DeepLink.cleared in C.
  destruct (JsString.testHashName (fst p)); [discriminate C | reflexivity].
Qed.

(** X17. A permalink leads back to the entry: for a collection whose
    keys are strings, an entry of it whose key begins with [0x], and an
    address without hash-style fragment, decoding the address written
    by [setDeepLink] for that key and looking the result up yields an
    entry with the same key up to letter case; it is that very entry
    when no other entry has such a key. *)
Theorem permalink_selects (items : list Normalizer.entry) (e : Normalizer.entry)
    (h : string) (loc : DeepLink.location) :
  In e items ->
  Normalizer.hash e = Js.VStr h ->
  JsString.test0x h = true ->
  DeepLink.parseHashFragment loc = None ->
  (forall x, In x items -> exists k, Normalizer.hash x = Js.VStr k) ->
  exists k e' h',
    DeepLink.parseDeepLink (DeepLink.setDeepLink h loc) = Some k
    /\ View.find items k = Js.OK (Some e')
    /\ Normalizer.hash e' = Js.VStr h'
    /\ JsString.toLowerCase h' = JsString.toLowerCase h
    /\ ((forall x k', In x items -> Normalizer.hash x = Js.VStr k' ->
           JsString.toLowerCase k' = JsString.toLowerCase h -> x = e) -> e' = e).
Proof.
  intros He Hh T F S.
  destruct (find_first items h S)
    as [[before [e' [after [h' [Ff [I [Hh' [El B]]]]]]]] | [Ff N]].
  - exists h, e', h'. repeat split; try assumption.
    + exact (parse_after_set h loc T F).
    + intro U. apply (U e' h'); [| exact Hh' | exact El].
      rewrite I. apply in_or_app. right. left. reflexivity.
  - exfalso. exact (N e h He Hh eq_refl).
Qed.

Lemma permalink_selects_witness :
  exists k e' h',
    DeepLink.parseDeepLink
      (DeepLink.setDeepLink "0xAB" (DeepLink.mkLocation "" [("_0x1", ""); ("foo", "bar")])) = Some k
    /\ View.find [Spec.defaults "CFX" "0x1" []; Spec.defaults "CFX" "0xAB" []] k = Js.OK (Some e')
    /\ Normalizer.hash e' = Js.VStr h'
    /\ JsString.toLowerCase h' = JsString.toLowerCase "0xAB"
    /\ ((forall x k', In x [Spec.defaults "CFX" "0x1" []; Spec.defaults "CFX" "0xAB" []] ->
           Normalizer.hash x = Js.VStr k' ->
           JsString.toLowerCase k' = JsString.toLowerCase "0xAB" ->
           x = Spec.defaults "CFX" "0xAB" []) -> e' = Spec.defaults "CFX" "0xAB" []).
Proof.
  apply (permalink_selects [Spec.defaults "CFX" "0x1" []; Spec.defaults "CFX" "0xAB" []]
           (Spec.defaults "CFX" "0xAB" []) "0xAB"
           (DeepLink.mkLocation "" [("_0x1", ""); ("foo", "bar")])).
  - right. left. reflexivity.
  - reflexivity.
  - reflexivity.
  - reflexivity.
  - intros x [E | [E | []]]; subst x; eexists; reflexivity.
Defined.

(** ** Code tabs *)

Lemma isHexDigit_alnum (c : ascii) :
  JsString.isHexDigit c = true ->
  JsString.isLower c || JsString.isUpper c || JsString.isDigit c = true.
Proof. destruct c as [[] [] [] [] [] [] [] []]; vm_compute; intro H; congruence. Qed.

Lemma keepAlnum_hex (s : string) :
  JsString.forallb JsString.isHexDigit s = true -> View.keepAlnum s = s.
Proof.
  induction s as [|c r IH]; simpl; [reflexivity |].
  intro H. apply andb_true_iff in H. destruct H as [Hc Hr].
  rewrite (isHexDigit_alnum c Hc), (IH Hr). reflexivity.
Qed.

Lemma keepAlnum_token (h : string) :
  JsString.isHashToken h = true -> View.keepAlnum h = h.
Proof.
  destruct h as [|a [|b r]]; try discriminate;
    destruct a as [[] [] [] [] [] [] [] []]; try discriminate.
  simpl JsString.isHashToken. intro H.
  apply andb_true_iff in H. destruct H as [H Hr].
  apply andb_true_iff in H. destruct H as [Hx _].
  change (View.keepAlnum (String "0" (String b r)))
    with (String "0" (View.keepAlnum (String b r))).
  f_equal.
  assert (Hb : JsString.isLower b || JsString.isUpper b || JsString.isDigit b = true).
  { apply orb_true_iff in Hx. destruct Hx as [Hx | Hx];
      apply Ascii.eqb_eq in Hx; subst b; reflexivity. }
  simpl. rewrite Hb, (keepAlnum_hex r Hr). reflexivity.
Qed.

Lemma append_injective_l (p a b : string) : (p ++ a = p ++ b)%string -> a = b.
Proof.
  induction p as [|c p IH]; simpl; intro H; [exact H |].
  injection H as H. exact (IH H).
Qed.

(** X18. For entries whose keys are hash-style tokens ([0x] and hex
    digits), the identifier of the tab group is [tabs_] followed by the
    key itself, so entries with different keys get different
    identifiers. *)
Theorem tabsId_of_token (e1 e2 : Normalizer.entry) (h1 h2 : string) :
  Normalizer.hash e1 = Js.VStr h1 -> JsString.isHashToken h1 = true ->
  Normalizer.hash e2 = Js.VStr h2 -> JsString.isHashToken h2 = true ->
  View.tabsId e1 = Js.OK ("tabs_" ++ h1)%string
  /\ (View.tabsId e1 = View.tabsId e2 -> h1 = h2).
Proof.
  intros H1 T1 H2 T2. unfold View.tabsId.
  rewrite H1, H2, (keepAlnum_token h1 T1), (keepAlnum_token h2 T2).
  split; [reflexivity |]. intro E. injection E as E. exact E.
Qed.

Lemma tabsId_of_token_witness :
  View.tabsId (Spec.defaults "CFX" "0x1aF" []) = Js.OK "tabs_0x1aF".
Proof.
  exact (proj1 (tabsId_of_token (Spec.defaults "CFX" "0x1aF" []) (Spec.defaults "CFX" "0x2" [])
                  "0x1aF" "0x2" eq_refl eq_refl eq_refl eq_refl)).
Defined.

(** X19. Whenever the tabs of an entry can be built there are four of
    them, with keys raw, lua, cs and js in this order, and exactly one
    is active: the one of the preferred language when that is one of
    the four keys, the raw one otherwise. *)
Theorem tabs_one_active (e : Normalizer.entry) (ts : list View.tab) (lang : string) :
  View.tabs e = Js.OK ts ->
  List.map View.key ts = ["raw"; "lua"; "cs"; "js"]
  /\ List.length (List.filter (fun t => String.eqb (View.key t) (View.activeKey ts lang)) ts) = 1
  /\ (In lang ["raw"; "lua"; "cs"; "js"] -> View.activeKey ts lang = lang)
  /\ (~ In lang ["raw"; "lua"; "cs"; "js"] -> View.activeKey ts lang = "raw").
Proof.
  unfold View.tabs. intro H.
  destruct (Signature.formatRawSignature e) as [raw |]; [| discriminate H]. simpl in H.
  destruct (View.exampleOr "lua" _ e) as [lua |]; [| discriminate H]. simpl in H.
  destruct (View.exampleOr "cs" _ e) as [cs |]; [| discriminate H]. simpl in H.
  destruct (View.exampleOr "js" _ e) as [js |]; [| discriminate H]. simpl in H.
  injection H as H. subst ts. split; [reflexivity |].
  unfold View.activeKey. cbn [existsb View.key].
  destruct (String.eqb_spec "raw" lang) as [E1 | E1];
    [subst lang; repeat split; intros _; reflexivity |].
  destruct (String.eqb_spec "lua" lang) as [E2 | E2];
    [subst lang; repeat split; intro N; exfalso; apply N; simpl; tauto |].
  destruct (String.eqb_spec "cs" lang) as [E3 | E3];
    [subst lang; repeat split; intro N; exfalso; apply N; simpl; tauto |].
  destruct (String.eqb_spec "js" lang) as [E4 | E4];
    [subst lang; repeat split; intro N; exfalso; apply N; simpl; tauto |].
  repeat split.
  intros [E | [E | [E | [E | []]]]]; congruence.
Qed.

Lemma tabs_one_active_witness :
  exists ts,
    View.tabs (Spec.defaults "CFX" "0x1" []) = Js.OK ts
    /\ View.activeKey ts "python" = "raw".
Proof.
  eexists. split; [reflexivity |].
  apply (proj2 (proj2 (proj2 (tabs_one_active (Spec.defaults "CFX" "0x1" []) _ "python" eq_refl)))).
  simpl. intros [E | [E | [E | [E | []]]]]; discriminate E.
Defined.

Example tabs_active_run :
  match View.tabs (Spec.defaults "CFX" "0x1" []) with
  | Js.OK ts => View.activeKey ts "cs" = "cs" /\ View.activeKey ts "" = "raw"
  | Js.TypeError => False
  end.
Proof. split; reflexivity. Qed.

Lemma formatters_succeed (nsKey hashKey : string) (n0 : Js.value) (e : Normalizer.entry) :
  Normalizer.normalize nsKey hashKey n0 = Js.OK e ->
  Facts.succeeds (Signature.formatRawSignature e)
  /\ Facts.succeeds (Signature.formatLuaSignature e)
  /\ Facts.succeeds (Signature.formatCsSignature e)
  /\ Facts.succeeds (Signature.formatJsSignature e).
Proof.
  intro N.
  destruct (signature_parts _ _ _ _ N) as [[ps [E M]] [R [[l Tl] [[nm Tn] [rs Tr]]]]].
  destruct (joinParams_succeeds (Signature.typedParam "Any") ", " e ps
              (typedParam_succeeds "Any") E M) as [pa Ha].
  destruct (joinParams_succeeds (Signature.typedParam "object") ", " e ps
              (typedParam_succeeds "object") E M) as [po Ho].
  destruct (joinParams_succeeds Signature.namedParam ", " e ps
              namedParam_succeeds E M) as [pn Hn].
  unfold Signature.formatRawSignature, Signature.formatLuaSignature,
    Signature.formatCsSignature, Signature.formatJsSignature.
  rewrite Ha, Ho, Hn, R. simpl. rewrite Tl, Tn, Tr. simpl.
  repeat split; eexists; reflexivity.
Qed.

Lemma exampleOr_succeeds (lang : string) (format : Normalizer.entry -> Js.result string)
    (e : Normalizer.entry) :
  Facts.succeeds (format e) -> Facts.succeeds (View.exampleOr lang format e).
Proof.
  intros [s H]. unfold View.exampleOr.
  destruct (Js.truthy _); [eexists; reflexivity |].
  rewrite H. eexists. reflexivity.
Qed.

Lemma example_code (nsKey hashKey : string) (n0 : Js.value)
    (e : Normalizer.entry) (exs : list Js.value) (ex : Js.value) (l t : string)
    (format : Normalizer.entry -> Js.result string) :
  Normalizer.normalize nsKey hashKey n0 = Js.OK e ->
  Js.get n0 "examples" = Js.VArr (exs ++ [ex]) ->
  Js.get ex "lang" = Js.VStr l ->
  JsString.toLowerCase l = t -> t <> "" ->
  Js.truthy (Js.get ex "code") = true ->
  View.exampleOr t format e = Js.OK (Js.get ex "code").
Proof.
  intros N G L E Ht C.
  destruct (normalize_inv _ _ _ _ N) as [p [j [_ [_ [M _]]]]].
  rewrite get_or_empty, G in M.
  assert (Hl : l <> "") by (intro Z; subst l; apply Ht; symmetry; exact E).
  pose proof (examples_last_code exs ex l _ L Hl M) as X.
  unfold View.exampleOr. rewrite <- E, X. unfold Js.or. rewrite C, C. reflexivity.
Qed.

(** X20. An example in the data replaces the generated signature: if
    the examples of a payload end with an object whose language tag is
    lua, cs or js up to the case of the letters A to Z and whose code
    is a non-empty string, then for the entry of that payload the tabs
    are built without error, the tab of that language has this code,
    and the text put in its pane is the escaped code. *)
Theorem example_replaces_signature (nsKey hashKey : string) (n0 : Js.value)
    (e : Normalizer.entry) (exs : list Js.value) (ex : Js.value) (l t c : string) :
  Normalizer.normalize nsKey hashKey n0 = Js.OK e ->
  Js.get n0 "examples" = Js.VArr (exs ++ [ex]) ->
  Js.get ex "lang" = Js.VStr l ->
  JsString.toLowerCase l = t ->
  In t ["lua"; "cs"; "js"] ->
  Js.get ex "code" = Js.VStr c -> c <> "" ->
  exists ts tb,
    View.tabs e = Js.OK ts
    /\ In tb ts
    /\ View.key tb = t
    /\ View.code tb = Js.VStr c
    /\ View.paneText tb = Js.OK (Html.escape c).
Proof.
  intros N G L E Ht C Hc.
  assert (T : Js.truthy (Js.get ex "code") = true).
  { rewrite C. destruct c; [contradiction Hc; reflexivity | reflexivity]. }
  assert (Hne : t <> "").
  { destruct Ht as [Z | [Z | [Z | []]]]; subst t; rewrite <- Z; discriminate. }
  assert (X : forall format, View.exampleOr t format e = Js.OK (Js.VStr c)).
  { intro format. rewrite <- C. exact (example_code _ _ _ _ exs ex l t format N G L E Hne T). }
  destruct (formatters_succeed _ _ _ _ N) as [[raw Hr] [Hl [Hcs Hj]]].
  destruct (exampleOr_succeeds "lua" _ e Hl) as [lua Elua].
  destruct (exampleOr_succeeds "cs" _ e Hcs) as [cs Ecs].
  destruct (exampleOr_succeeds "js" _ e Hj) as [js Ejs].
  assert (P : View.paneText (View.mkTab t t (Js.VStr c)) = Js.OK (Html.escape c)).
  { unfold View.paneText. simpl View.code. rewrite or_string_empty. reflexivity. }
  assert (Q : forall lb, View.paneText (View.mkTab t lb (Js.VStr c)) = Js.OK (Html.escape c)).
  { intro lb. exact P. }
  unfold View.tabs. rewrite Hr, Elua, Ecs, Ejs. simpl.
  clear E Hne.
  destruct Ht as [Z | [Z | [Z | []]]]; subst t.
  - rewrite X in Elua. injection Elua as Elua. subst lua.
    eexists. exists (View.mkTab "lua" "lua" (Js.VStr c)).
    split; [reflexivity |]. repeat split; [right; left; reflexivity | apply Q].
  - rewrite X in Ecs. injection Ecs as Ecs. subst cs.
    eexists. exists (View.mkTab "cs" "c#" (Js.VStr c)).
    split; [reflexivity |]. repeat split; [right; right; left; reflexivity | apply Q].
  - rewrite X in Ejs. injection Ejs as Ejs. subst js.
    eexists. exists (View.mkTab "js" "js" (Js.VStr c)).
    split; [reflexivity |]. repeat split; [right; right; right; left; reflexivity | apply Q].
Qed.

Lemma example_replaces_signature_witness :
  exists e ts tb,
    Normalizer.normalize "CFX" "0x1"
      (Js.VObj [("name", Js.VStr "FOO");
                ("examples", Js.VArr [Js.VObj [("lang", Js.VStr "Lua"); ("code", Js.VStr "Foo(1<2)")]])])
    = Js.OK e
    /\ View.tabs e = Js.OK ts
    /\ In tb ts
    /\ View.key tb = "lua"
    /\ View.code tb = Js.VStr "Foo(1<2)"
    /\ View.paneText tb = Js.OK "Foo(1&lt;2)".
Proof.
  eexists.
  destruct (example_replaces_signature "CFX" "0x1"
           (Js.VObj [("name", Js.VStr "FOO");
                     ("examples", Js.VArr [Js.VObj [("lang", Js.VStr "Lua"); ("code", Js.VStr "Foo(1<2)")]])])
           _ [] (Js.VObj [("lang", Js.VStr "Lua"); ("code", Js.VStr "Foo(1<2)")]) "Lua" "lua" "Foo(1<2)"
           eq_refl eq_refl eq_refl eq_refl (or_introl eq_refl) eq_refl ltac:(discriminate))
    as [ts [tb H]].
  exists ts, tb. split; [reflexivity | exact H].
Defined.

(** ** The query engine, continued *)

(** X21. With an empty or blank query and both selectors at ["all"]
    the list shows the whole collection. *)
Theorem filtered_no_criteria (c : Query.controls) (items : list Normalizer.entry) :
  Query.elApi c = "all" -> Query.elNs c = "all" -> JsString.trim (Query.elQ c) = "" ->
  Query.filtered c items = items.
Proof.
  intros Ha Hn Hq. unfold Query.filtered. rewrite Hq. simpl JsString.toLowerCase.
  rewrite <- (filter_all items) at 2. apply List.filter_ext. intro n.
  unfold Query.keep. rewrite Ha, Hn. reflexivity.
Qed.

Lemma filtered_no_criteria_witness :
  Query.filtered (Query.mkControls "  " "all" "lua" "all")
    [Spec.defaults "CFX" "0x1" []; Spec.defaults "PED" "0x2" []]
  = [Spec.defaults "CFX" "0x1" []; Spec.defaults "PED" "0x2" []].
Proof.
  exact (filtered_no_criteria (Query.mkControls "  " "all" "lua" "all")
           [Spec.defaults "CFX" "0x1" []; Spec.defaults "PED" "0x2" []]
           eq_refl eq_refl eq_refl).
Defined.

Lemma satisfies_narrower (c1 c2 : Query.controls) (n : Normalizer.entry) :
  Query.elApi c1 = Query.elApi c2 ->
  Query.elNs c1 = Query.elNs c2 ->
  Spec.substring (JsString.toLowerCase (JsString.trim (Query.elQ c1)))
    (JsString.toLowerCase (JsString.trim (Query.elQ c2))) ->
  Spec.satisfies c2 n -> Spec.satisfies c1 n.
Proof.
  intros Ha Hn Hq [A [N Q]]. unfold Spec.satisfies. rewrite Ha, Hn.
  repeat split; try assumption. exact (substring_trans _ _ _ Hq Q).
Qed.

(** X22. Typing more narrows the list: when the selectors are the same
    and the query of the first state occurs (trimmed, lower-cased) in
    the query of the second, every entry listed for the second state is
    listed for the first, and filtering the first list again with the
    second state gives the second list. *)
Theorem filtered_narrows (c1 c2 : Query.controls) (items : list Normalizer.entry) :
  Query.elApi c1 = Query.elApi c2 ->
  Query.elNs c1 = Query.elNs c2 ->
  Spec.substring (JsString.toLowerCase (JsString.trim (Query.elQ c1)))
    (JsString.toLowerCase (JsString.trim (Query.elQ c2))) ->
  Query.filtered c2 (Query.filtered c1 items) = Query.filtered c2 items
  /\ incl (Query.filtered c2 items) (Query.filtered c1 items).
Proof.
  intros Ha Hn Hq.
  assert (K : forall n,
             Query.keep c2 (JsString.toLowerCase (JsString.trim (Query.elQ c2))) n = true ->
             Query.keep c1 (JsString.toLowerCase (JsString.trim (Query.elQ c1))) n = true).
  { intros n H. apply keep_iff. apply keep_iff in H.
    exact (satisfies_narrower c1 c2 n Ha Hn Hq H). }
  unfold Query.filtered. split.
  - rewrite filter_twice. apply List.filter_ext. intro n.
    destruct (Query.keep c2 _ n) eqn:E; [rewrite (K n E); reflexivity | apply andb_false_r].
  - intros n H. apply filter_In in H. destruct H as [H E].
    apply filter_In. split; [exact H | exact (K n E)].
Qed.

Lemma filtered_narrows_witness :
  Query.filtered (Query.mkControls "0x12" "all" "raw" "all")
    (Query.filtered (Query.mkControls " 0X1" "all" "raw" "all")
       [Spec.defaults "CFX" "0x12" []; Spec.defaults "CFX" "0x13" []; Spec.defaults "CFX" "0x2" []])
  = Query.filtered (Query.mkControls "0x12" "all" "raw" "all")
      [Spec.defaults "CFX" "0x12" []; Spec.defaults "CFX" "0x13" []; Spec.defaults "CFX" "0x2" []].
Proof.
  apply (proj1 (filtered_narrows (Query.mkControls " 0X1" "all" "raw" "all")
                  (Query.mkControls "0x12" "all" "raw" "all")
                  [Spec.defaults "CFX" "0x12" []; Spec.defaults "CFX" "0x13" [];
                   Spec.defaults "CFX" "0x2" []] eq_refl eq_refl
                  (ex_intro _ EmptyString (ex_intro _ "2" eq_refl)))).
Defined.

Lemma sort_permutation (comparefn : string -> string -> Z) (arr : list string) :
  Permutation (Query.sort comparefn arr) arr.
Proof.
  unfold Query.sort.
  assert (G : forall acc,
             Permutation (List.fold_left (fun a x => Query.insert comparefn x a) arr acc)
               (acc ++ arr)).
  { induction arr as [|x arr IH]; intro acc; simpl.
    - rewrite app_nil_r. apply Permutation_refl.
    - apply Permutation_trans with (1 := IH _).
      apply Permutation_trans with ((x :: acc) ++ arr).
      + apply Permutation_app_tail, insert_perm.
      + simpl. apply Permutation_middle. }
  exact (G []).
Qed.

(** X23. No option of the namespace selector leads to an empty list:
    for every name in the namespace list of a collection, the list for
    that namespace, with an empty query and the API-set selector at
    ["all"], has at least one entry. *)
Theorem namespace_option_not_empty (localeCompare : string -> string -> Z)
    (items : list Normalizer.entry) (names : list string) (s lang : string) :
  Query.namespaces localeCompare items = Some names ->
  In s names ->
  Query.filtered (Query.mkControls "" "all" lang s) items <> [].
Proof.
  unfold Query.namespaces. intros H Hs.
  destruct (Query.strings _) as [l |] eqn:E; [| discriminate H].
  simpl in H. injection H as H. subst names.
  apply (Permutation_in _ (sort_permutation localeCompare _)) in Hs.
  apply (proj2 (unique_spec l)) in Hs.
  apply strings_map in E.
  assert (M : In (Js.VStr s) (List.filter Js.truthy (List.map Normalizer.ns items))).
  { rewrite E. apply in_map. exact Hs. }
  apply filter_In in M. destruct M as [M _].
  apply in_map_iff in M. destruct M as [n [En Hn]].
  assert (K : In n (Query.filtered (Query.mkControls "" "all" lang s) items)).
  { unfold Query.filtered. apply filter_In. split; [exact Hn |].
    unfold Query.keep. simpl. rewrite En. simpl. rewrite String.eqb_refl.
    rewrite andb_false_r. reflexivity. }
  intro Z. rewrite Z in K. destruct K.
Qed.

Lemma namespace_option_not_empty_witness :
  Query.filtered (Query.mkControls "" "all" "raw" "PLAYER")
    [Spec.defaults "PLAYER" "0x1" []; Spec.defaults "" "0x2" []; Spec.defaults "CFX" "0x3" []]
  <> [].
Proof.
  apply (namespace_option_not_empty Query.compareCodes
           [Spec.defaults "PLAYER" "0x1" []; Spec.defaults "" "0x2" []; Spec.defaults "CFX" "0x3" []]
           ["CFX"; "PLAYER"] "PLAYER" "raw" eq_refl).
  right. left. reflexivity.
Defined.

(** ** Deep links, continued *)

Lemma filter_idem {A : Type} (f : A -> bool) (l : list A) :
  List.filter f (List.filter f l) = List.filter f l.
Proof.
  rewrite filter_twice. apply List.filter_ext. intro a. destruct (f a); reflexivity.
Qed.

Lemma setDeepLink_eq (key : string) (loc : DeepLink.location) :
  DeepLink.setDeepLink key loc
  = DeepLink.mkLocation (DeepLink.hash loc)
      (DeepLink.set (String "_" key) ""
         (List.filter (fun p => negb (DeepLink.cleared (fst p))) (DeepLink.searchParams loc))).
Proof. unfold DeepLink.setDeepLink. rewrite clear_all. reflexivity. Qed.

(** X24. Selections do not pile up in the address: after a key that
    begins with [0x] has been encoded, encoding any second key gives the
    same address as encoding the second key alone; in particular
    encoding the same key twice changes nothing. *)
Theorem setDeepLink_last_wins (k1 k2 : string) (loc : DeepLink.location) :
  JsString.test0x k1 = true ->
  DeepLink.setDeepLink k2 (DeepLink.setDeepLink k1 loc) = DeepLink.setDeepLink k2 loc
  /\ DeepLink.setDeepLink k1 (DeepLink.setDeepLink k1 loc) = DeepLink.setDeepLink k1 loc.
Proof.
  intro T.
  assert (G : forall k, DeepLink.setDeepLink k (DeepLink.setDeepLink k1 loc)
                        = DeepLink.setDeepLink k loc).
  { intro k. rewrite (setDeepLink_eq k (DeepLink.setDeepLink k1 loc)), (setDeepLink_eq k loc).
    rewrite (setDeepLink_params k1 loc T).
    replace (DeepLink.hash (DeepLink.setDeepLink k1 loc)) with (DeepLink.hash loc) by reflexivity.
    rewrite filter_app, filter_idem. simpl.
    unfold DeepLink.cleared at 2. simpl JsString.testHashName. rewrite T. simpl.
    rewrite app_nil_r. reflexivity. }
  split; apply G.
Qed.

Lemma setDeepLink_last_wins_witness :
  DeepLink.setDeepLink "0x2"
    (DeepLink.setDeepLink "0x1" (DeepLink.mkLocation "#top" [("foo", "bar"); ("hash", "0x9")]))
  = DeepLink.setDeepLink "0x2" (DeepLink.mkLocation "#top" [("foo", "bar"); ("hash", "0x9")]).
Proof.
  exact (proj1 (setDeepLink_last_wins "0x1" "0x2"
                  (DeepLink.mkLocation "#top" [("foo", "bar"); ("hash", "0x9")]) eq_refl)).
Defined.

Lemma firstHashName_selection (ps : list (string * string)) :
  DeepLink.firstHashName (List.filter (fun p => DeepLink.cleared (fst p)) ps)
  = DeepLink.firstHashName ps.
Proof.
  induction ps as [|[k v] ps IH]; simpl; [reflexivity |].
  unfold DeepLink.cleared at 1. simpl fst.
  destruct (JsString.testHashName k) eqn:T; simpl.
  - rewrite T. reflexivity.
  - destruct (String.eqb k "hash"); simpl; [rewrite T |]; exact IH.
Qed.

Lemma get_hash_selection (ps : list (string * string)) :
  DeepLink.get "hash" (List.filter (fun p => DeepLink.cleared (fst p)) ps)
  = DeepLink.get "hash" ps.
Proof.
  induction ps as [|[k v] ps IH]; simpl; [reflexivity |].
  unfold DeepLink.cleared at 1. simpl fst.
  destruct (String.eqb k "hash") eqn:E.
  - rewrite orb_true_r. simpl. rewrite E. reflexivity.
  - rewrite orb_false_r. destruct (JsString.testHashName k); simpl; [rewrite E |]; exact IH.
Qed.

(** X25. Unrelated query parameters never influence decoding: the
    decoded key is the same when every parameter whose name neither
    begins with an optional underscore and [0x] nor is [hash] is
    removed from the address. *)
Theorem parseDeepLink_ignores_unrelated (fragment : string) (ps : list (string * string)) :
  DeepLink.parseDeepLink (DeepLink.mkLocation fragment ps)
  = DeepLink.parseDeepLink
      (DeepLink.mkLocation fragment (List.filter (fun p => DeepLink.cleared (fst p)) ps)).
Proof.
  unfold DeepLink.parseDeepLink, DeepLink.parseHashFragment. simpl.
  rewrite firstHashName_selection, get_hash_selection. reflexivity.
Qed.

(** X26. A hash-style fragment outlives encoding: when the fragment of
    the address decodes to a token, the address written by
    [setDeepLink], for whatever key, still decodes to that token. *)
Theorem fragment_outlives_setDeepLink (key t : string) (loc : DeepLink.location) :
  DeepLink.parseHashFragment loc = Some t ->
  DeepLink.parseDeepLink (DeepLink.setDeepLink key loc) = Some t.
Proof.
  intro F. unfold DeepLink.parseDeepLink.
  replace (DeepLink.parseHashFragment (DeepLink.setDeepLink key loc))
    with (DeepLink.parseHashFragment loc) by reflexivity.
  rewrite F, (parseHashFragment_nonEmpty loc t F). reflexivity.
Qed.

Lemma fragment_outlives_setDeepLink_witness :
  DeepLink.parseDeepLink
    (DeepLink.setDeepLink "0xABCD" (DeepLink.mkLocation "#_0x11" [("foo", "bar")]))
  = Some "0x11".
Proof.
  exact (fragment_outlives_setDeepLink "0xABCD" "0x11"
           (DeepLink.mkLocation "#_0x11" [("foo", "bar")]) eq_refl).
Defined.

(** ** The source loader *)

Lemma fetchLoop_resolved (fetch : string -> Loader.outcome Loader.response)
    (urls : list string) (lastErr : option Loader.exn) (v : Js.value) :
  Loader.fetchLoop fetch urls lastErr = Loader.Resolved v <->
  exists before url after,
    urls = before ++ url :: after
    /\ Loader.attempt fetch url = Loader.Resolved v
    /\ forall u, In u before -> Loader.fails fetch u.
Proof.
  revert lastErr; induction urls as [|url urls IH]; intro lastErr; simpl.
  - split; [discriminate |]. intros [before [u [after [E _]]]].
    destruct before; discriminate E.
  - destruct (Loader.attempt fetch url) as [w | e] eqn:A.
    + split.
      * intro H. exists [], url, urls. repeat split; [exact (eq_trans A H) | intros u []].
      * intros [before [u [after [E [Au B]]]]].
        destruct before as [|b before]; simpl in E; injection E as E1 E2; subst.
        -- rewrite A in Au. exact Au.
        -- destruct (B b (or_introl eq_refl)) as [e Fe]. rewrite A in Fe. discriminate Fe.
    + rewrite IH. split.
      * intros [before [u [after [E [Au B]]]]]. exists (url :: before), u, after.
        subst urls. repeat split; [exact Au |].
        intros x [Hx | Hx]; [subst x; exists e; exact A | exact (B x Hx)].
      * intros [before [u [after [E [Au B]]]]].
        destruct before as [|b before]; simpl in E; injection E as E1 E2; subst.
        -- rewrite A in Au. discriminate Au.
        -- exists before, u, after. repeat split; [exact Au |].
           intros x Hx. apply B. right. exact Hx.
Qed.

(** X27. [fetchFirstOk] resolves to a document exactly when some
    candidate delivers it and every candidate before that one fails:
    the candidates are tried in order and the first that succeeds is
    used, whatever the later ones would give. *)
Theorem fetchFirstOk_first_success (fetch : string -> Loader.outcome Loader.response)
    (urls : list string) (v : Js.value) :
  Loader.fetchFirstOk fetch urls = Loader.Resolved v <->
  exists before url after,
    urls = before ++ url :: after
    /\ Loader.attempt fetch url = Loader.Resolved v
    /\ forall u, In u before -> Loader.fails fetch u.
Proof. exact (fetchLoop_resolved fetch urls None v). Qed.

Lemma fetchLoop_rejected (fetch : string -> Loader.outcome Loader.response)
    (urls : list string) (lastErr : option Loader.exn) :
  (forall u, In u urls -> Loader.fails fetch u) ->
  Loader.fetchLoop fetch urls lastErr
  = Loader.Rejected
      match List.rev urls with
      | last :: _ =>
          match Loader.attempt fetch last with
          | Loader.Rejected e => e
          | Loader.Resolved _ => Loader.Error "Fetch failed"
          end
      | [] =>
          match lastErr with
          | Some e => e
          | None => Loader.Error "Fetch failed"
          end
      end.
Proof.
  revert lastErr; induction urls as [|url urls IH]; intros lastErr F; simpl.
  - reflexivity.
  - destruct (F url (or_introl eq_refl)) as [e A]. rewrite A.
    rewrite IH; [| intros u Hu; apply F; right; exact Hu].
    destruct (List.rev urls) as [|last r] eqn:R; simpl.
    + rewrite A. reflexivity.
    + reflexivity.
Qed.

(** X28. When every candidate fails, [fetchFirstOk] rejects with the
    error of the last candidate; with no candidate at all it rejects
    with the error ["Fetch failed"]. *)
Theorem fetchFirstOk_all_fail (fetch : string -> Loader.outcome Loader.response)
    (init : list string) (last : string) (e : Loader.exn) :
  (forall u, In u init -> Loader.fails fetch u) ->
  Loader.attempt fetch last = Loader.Rejected e ->
  Loader.fetchFirstOk fetch (init ++ [last]) = Loader.Rejected e
  /\ Loader.fetchFirstOk fetch [] = Loader.Rejected (Loader.Error "Fetch failed").
Proof.
  intros F A. split; [| reflexivity].
  unfold Loader.fetchFirstOk. rewrite fetchLoop_rejected.
  - rewrite rev_app_distr. simpl. rewrite A. reflexivity.
  - intros u Hu. apply in_app_or in Hu. destruct Hu as [Hu | [Hu | []]].
    + exact (F u Hu).
    + subst u. exists e. exact A.
Qed.

Lemma fetchFirstOk_first_success_witness :
  Loader.fetchFirstOk
    (fun url =>
       if String.eqb url "./data/natives.json"
       then Loader.Resolved (Loader.mkResponse false 404 (Loader.Resolved Js.VNull))
       else Loader.Resolved (Loader.mkResponse true 200 (Loader.Resolved (Js.VObj []))))
    Loader.SOURCES_gta
  = Loader.Resolved (Js.VObj []).
Proof.
  apply (proj2 (fetchFirstOk_first_success _ Loader.SOURCES_gta (Js.VObj []))).
  exists ["./data/natives.json"], "https://runtime.fivem.net/doc/natives.json", [].
  split; [reflexivity | split; [reflexivity |]].
  intros u [E | []]. subst u. eexists. reflexivity.
Defined.

Lemma fetchFirstOk_all_fail_witness :
  Loader.fetchFirstOk
    (fun url =>
       if String.eqb url "./data/natives.json"
       then Loader.Resolved (Loader.mkResponse false 404 (Loader.Resolved Js.VNull))
       else Loader.Rejected (Loader.Error "offline"))
    Loader.SOURCES_gta
  = Loader.Rejected (Loader.Error "offline").
Proof.
  set (fetch := fun url =>
       if String.eqb url "./data/natives.json"
       then Loader.Resolved (Loader.mkResponse false 404 (Loader.Resolved Js.VNull))
       else Loader.Rejected (Loader.Error "offline")).
  refine (proj1 (fetchFirstOk_all_fail fetch ["./data/natives.json"]
                   "https://runtime.fivem.net/doc/natives.json" (Loader.Error "offline") _ _)).
  - intros u [E | []]. subst u. eexists. reflexivity.
  - reflexivity.
Defined.

Example fetch_http_error :
  Loader.attempt
    (fun _ => Loader.Resolved (Loader.mkResponse false 404 (Loader.Resolved Js.VNull)))
    "./data/natives.json"
  = Loader.Rejected (Loader.Error "./data/natives.json -> HTTP 404").
Proof. reflexivity. Qed.

(** ** Keys and namespaces of flattened entries *)

(** X29. In a collection returned by [flatten], taken in order against
    the payloads of the dataset, the key of an entry is the payload's
    [hash] when that is truthy and otherwise the key the payload is
    stored under; its namespace is the payload's [ns] when that is
    truthy and otherwise the name of the enclosing namespace; its raw
    name is the payload's [name] or the empty string. *)
Theorem flatten_keys (db : Js.value) (items : list Normalizer.entry) :
  Normalizer.flatten db = Js.OK items ->
  Forall2
    (fun p e =>
       Normalizer.hash e = Js.or (Js.get (snd p) "hash") (Js.VStr (snd (fst p)))
       /\ Normalizer.ns e = Js.or (Js.get (snd p) "ns") (Js.VStr (fst (fst p)))
       /\ Normalizer.name e = Js.or (Js.get (snd p) "name") (Js.VStr ""))
    (Facts.payloads db) items.
Proof.
  intro H.
  assert (F : Forall2 Facts.normalizes (Facts.payloads db) items).
  { unfold Normalizer.flatten in H. rewrite Object_entries_or in H. simpl in H.
    destruct (Js.mapM Normalizer.flattenNamespace _) as [groups |] eqn:M; [| discriminate H].
    simpl in H. injection H as H. subst items.
    apply mapM_Forall2 in M. unfold Facts.payloads.
    induction M as [| p g ps gs Hp _ IH]; simpl; [constructor |].
    apply Forall2_app; [exact (flattenNamespace_Forall2 p g Hp) | exact IH]. }
  clear H. revert F. generalize (Facts.payloads db). intros l F.
  induction F as [| p e ps es N _ IH]; [constructor | constructor; [| exact IH]].
  destruct (normalize_inv _ _ _ _ N) as [pa [j [_ [_ [_ [_ [_ [_ [_ [Hn [Hh Hns]]]]]]]]]]].
  rewrite !get_or_empty in *. repeat split; assumption.
Qed.

Lemma flatten_keys_witness :
  Forall2
    (fun p e =>
       Normalizer.hash e = Js.or (Js.get (snd p) "hash") (Js.VStr (snd (fst p)))
       /\ Normalizer.ns e = Js.or (Js.get (snd p) "ns") (Js.VStr (fst (fst p)))
       /\ Normalizer.name e = Js.or (Js.get (snd p) "name") (Js.VStr ""))
    (Facts.payloads (Js.VObj [("A", Js.VObj [("0x1", Js.VNull); ("0x2", Js.VNull)])]))
    [Spec.defaults "A" "0x1" []; Spec.defaults "A" "0x2" []].
Proof.
  exact (flatten_keys (Js.VObj [("A", Js.VObj [("0x1", Js.VNull); ("0x2", Js.VNull)])])
           [Spec.defaults "A" "0x1" []; Spec.defaults "A" "0x2" []] eq_refl).
Defined.

(** ** Lua and JS signatures *)

(** X30. The JS signature of an entry is a call followed by a
    semicolon, and the Lua signature is the same call, preceded by
    [local result = ] exactly when the entry has a result type other
    than [void]; one formatter throws exactly when the other does. *)
Theorem lua_js_signatures (e : Normalizer.entry) :
  match Signature.formatJsSignature e with
  | Js.OK js =>
      exists call,
        js = (call ++ ";")%string
        /\ Signature.formatLuaSignature e
           = Js.OK ((if Js.truthy (Signature.copied e "results")
                        && negb (Query.strictEqStr (Signature.copied e "results") "void")
                     then "local result = " else "") ++ call)%string
  | Js.TypeError => Signature.formatLuaSignature e = Js.TypeError
  end.
Proof.
  unfold Signature.formatJsSignature, Signature.formatLuaSignature.
  destruct (Normalizer.rawToPascal _) as [pn |]; [| reflexivity]. simpl.
  destruct (Signature.joinParams _ _ e) as [ps |]; [| reflexivity]. simpl.
  destruct (Js.ToString pn) as [nm |]; [| reflexivity]. simpl.
  exists (nm ++ "(" ++ ps ++ ")")%string. split.
  - rewrite !append_assoc_s. reflexivity.
  - reflexivity.
Qed.
